(** * Swedish speech transcriber: the orchestration around the model

    A shallow embedding of [swedish_transcriber.py] (the batch tool) and
    [swedish_transcriber_webapp.py] (the Flask service), and the properties
    of the specification stated over it.

    Python strings are sequences of Unicode code points; the file system is
    a finite map from path strings to nodes; the pretrained model, the audio
    decoder and werkzeug's [secure_filename] are interfaces the code calls
    and are taken abstractly.  Console output ([print]) is not modelled, and
    the command line is taken as [argparse] has parsed it.

    The embedding comes first, then the vocabulary of the properties and the
    sample data, then the lemmas, and at the end one theorem per claim of the
    specification. *)

From Stdlib Require Import NArith ZArith String Ascii.
From stdpp Require Import base option list gmap.

Local Open Scope N_scope.

(** ** Python values *)

Module Py.

(** A [str] is a list of code points. *)
Abbreviation char := N.
Abbreviation str := (list N).

(** String literals of the source. *)
Fixpoint py (s : string) : str :=
  match s with
  | EmptyString => []
  | String a s' => N_of_ascii a :: py s'
  end.

Arguments py : simpl never.

(** [str.isspace] for one character, CPython's [_PyUnicode_IsWhitespace]. *)
Definition isspace (c : char) : bool :=
  ((0x09 <=? c) && (c <=? 0x0D)) || ((0x1C <=? c) && (c <=? 0x20))
  || (c =? 0x85) || (c =? 0xA0) || (c =? 0x1680)
  || ((0x2000 <=? c) && (c <=? 0x200A))
  || (c =? 0x2028) || (c =? 0x2029) || (c =? 0x202F) || (c =? 0x205F)
  || (c =? 0x3000).

(** [s.lstrip()], [s.rstrip()] and [s.strip()] without argument. *)
Fixpoint lstrip (s : str) : str :=
  match s with
  | [] => []
  | c :: s' => if isspace c then lstrip s' else s
  end.

Definition rstrip (s : str) : str := reverse (lstrip (reverse s)).

Definition strip (s : str) : str := rstrip (lstrip s).

(** [s.lower()].  Only the letters A to Z are mapped; every other code point
    is kept.  Of the code points beyond ASCII whose Unicode lowercase differs,
    none lowercases to a character of the extension allow-list, so the
    membership test that uses [lower] is decided as in Python. *)
Definition lower_char (c : char) : char :=
  if (0x41 <=? c) && (c <=? 0x5A) then c + 0x20 else c.

Definition lower (s : str) : str := lower_char <$> s.

(** [s.rfind(c)] for a single character, [None] for -1. *)
Fixpoint rfind (c : char) (s : str) : option nat :=
  match s with
  | [] => None
  | x :: s' =>
      match rfind c s' with
      | Some i => Some (S i)
      | None => if decide (x = c) then Some 0%nat else None
      end
  end.

(** [s.split(sep)] for a single character separator. *)
Fixpoint split (sep : char) (s : str) : list str :=
  match s with
  | [] => [[]]
  | x :: s' =>
      if decide (x = sep) then [] :: split sep s'
      else match split sep s' with
           | [] => [[x]]
           | w :: ws => (x :: w) :: ws
           end
  end.

(** [sep.join(parts)]. *)
Fixpoint join (sep : str) (parts : list str) : str :=
  match parts with
  | [] => []
  | [p] => p
  | p :: ps => p ++ sep ++ join sep ps
  end.

(** Truthiness of an optional string argument: [None] and [''] are false. *)
Definition truthy (o : option str) : bool :=
  match o with
  | Some (_ :: _) => true
  | _ => false
  end.

Definition dot : char := 0x2E.
Definition slash : char := 0x2F.

(** *** pathlib (POSIX flavour, Python 3.4 to 3.13) *)

(** The parts of a path below its root: the components between slashes,
    empty ones and ['.'] dropped. *)
Definition parts (p : str) : list str :=
  filter (λ x, x ≠ [] ∧ x ≠ [dot]) (split slash p).

(** The root: ['//'] for exactly two leading slashes, ['/'] for one or for
    three and more, [''] otherwise. *)
Definition root (p : str) : str :=
  match p with
  | a :: b :: c :: _ =>
      if decide (a = slash) then
        if decide (b = slash) then
          if decide (c = slash) then [slash] else [slash; slash]
        else [slash]
      else []
  | [a; b] =>
      if decide (a = slash) then
        if decide (b = slash) then [slash; slash] else [slash]
      else []
  | [a] => if decide (a = slash) then [slash] else []
  | [] => []
  end.

(** [str(Path(p))]. *)
Definition Path (p : str) : str :=
  match root p, parts p with
  | [], [] => [dot]
  | r, ps => r ++ join [slash] ps
  end.

(** [Path(p).name]: the last part, [''] when there is none. *)
Definition name (p : str) : str := default [] (last (parts p)).

(** [Path(p).suffix] and [Path(p).stem], from the name [n] of the path:
    the last dot splits the name unless it is its first or last character. *)
Definition suffix_of_name (n : str) : str :=
  match rfind dot n with
  | Some i => if decide (0 < i ∧ i + 1 < length n)%nat then drop i n else []
  | None => []
  end.

Definition stem_of_name (n : str) : str :=
  match rfind dot n with
  | Some i => if decide (0 < i ∧ i + 1 < length n)%nat then take i n else n
  | None => n
  end.

Definition suffix (p : str) : str := suffix_of_name (name p).
Definition stem (p : str) : str := stem_of_name (name p).

(** [os.path.join(a, b)]. *)
Definition os_path_join (a b : str) : str :=
  if decide (head b = Some slash) then b
  else if decide (a = [] ∨ last a = Some slash) then a ++ b
  else a ++ [slash] ++ b.

(** [str(Path(d) / n)]. *)
Definition joinpath (d n : str) : str := Path (os_path_join (Path d) n).

(** [str(q)] for the directories [q] that [Path(p)] lies in, from the
    outermost to the nearest; the root and the working directory are not
    listed. *)
Definition ancestors (p : str) : list str :=
  (λ k, root p ++ join [slash] (take k (parts p)))
    <$> seq 1 (length (parts p) - 1).

(** The directory an entry at [p] is made in, [None] for the root or the
    working directory. *)
Definition parent (p : str) : option str := last (ancestors p).

(** The spelling of [p] names a directory, if anything: it is empty, or it
    ends with a slash, with ['.'] or with ['..']. *)
Definition names_directory (p : str) : bool :=
  bool_decide (last (split slash p) ∈ [Some []; Some [dot]; Some [dot; dot]]).

End Py.

Import Py.

(** ** Exceptions and results *)

(** [SystemExit] is what [sys.exit] raises; it is not an [Exception], so an
    [except Exception] clause lets it through. *)
Inductive exn :=
  | Exception (msg : str)
  | SystemExit (code : Z).

Inductive result (A : Type) :=
  | Ok (a : A)
  | Raise (e : exn).
Arguments Ok {A} a.
Arguments Raise {A} e.

(** [str(e)] for an exception caught by [except Exception as e]. *)
Definition msg_of (e : exn) : str :=
  match e with
  | Exception m => m
  | SystemExit _ => []
  end.

(** The message of an [OSError] with a file name. *)
Definition os_error (errno : string) (strerror : string) (path : str) : exn :=
  Exception (py "[Errno " ++ py errno ++ py "] " ++ py strerror
             ++ py ": '" ++ path ++ py "'").

Definition FileNotFoundError := os_error "2" "No such file or directory".
Definition FileExistsError := os_error "17" "File exists".
Definition NotADirectoryError := os_error "20" "Not a directory".
Definition IsADirectoryError := os_error "21" "Is a directory".

(** ** The world: file system and pipeline trace *)

(** A node of the file system.  A directory records the names [iterdir]
    yields, in iteration order.  The nodes are kept by path, as the path is
    spelled; an entry can be made in the root and in the working directory
    without a node for them. *)
Inductive node :=
  | File (content : str)
  | Dir (entries : list str).

(** The stages of the transcription pipeline, as they are invoked. *)
Inductive stage :=
  | AudioLoad (path : str) (sample_rate : N)
  | FeatureExtraction (sampling_rate : N)
  | Generation (language task : str)
  | Decoding (skip_special_tokens : bool).

Record world := World {
  fs : gmap str node;
  trace : list stage;
}.

(** Computations that read and change the world and may raise. *)
Definition M (A : Type) : Type := world → result A * world.

Definition ret {A} (a : A) : M A := λ w, (Ok a, w).
Definition raise {A} (e : exn) : M A := λ w, (Raise e, w).
Definition bind {A B} (m : M A) (k : A → M B) : M B :=
  λ w, match m w with
       | (Ok a, w') => k a w'
       | (Raise e, w') => (Raise e, w')
       end.

(** [try: m  except Exception as e: h e]. *)
Definition try_except {A} (m : M A) (h : exn → M A) : M A :=
  λ w, match m w with
       | (Raise (Exception msg), w') => h (Exception msg) w'
       | r => r
       end.

(** A library call returns, or raises an [Exception] with a message; it
    does not touch the world. *)
Inductive outcome (A : Type) :=
  | Returns (a : A)
  | Fails (msg : str).
Arguments Returns {A} a.
Arguments Fails {A} msg.

Definition lift {A} (o : outcome A) : M A :=
  λ w, match o with
       | Returns a => (Ok a, w)
       | Fails msg => (Raise (Exception msg), w)
       end.

Notation "'do' x <- m ; k" := (bind m (λ x, k))
  (at level 10, x name, m at level 100, k at level 200,
   format "'[v' 'do'  x  <-  m ; '/' k ']'").
Notation "m ;; k" := (bind m (λ _, k))
  (at level 100, k at level 200, right associativity).

Definition get_fs : M (gmap str node) := λ w, (Ok (fs w), w).
Definition put_fs (f : gmap str node) : M unit :=
  λ w, (Ok tt, World f (trace w)).
Definition log (s : stage) : M unit :=
  λ w, (Ok tt, World (fs w) (trace w ++ [s])).

(** *** File system operations *)

Module OS.

(** [os.path.exists(p)]. *)
Definition path_exists (p : str) : M bool :=
  do f <- get_fs; ret (bool_decide (is_Some (f !! p))).

(** The methods of a [Path(d)] object look [d] up in its normal form:
    [Path(d).exists()], [Path(d).is_file()], [Path(d).is_dir()]. *)
Definition exists_ (d : str) : M bool := path_exists (Path d).

Definition is_file (d : str) : M bool :=
  do f <- get_fs;
  ret (match f !! Path d with Some (File _) => true | _ => false end).

Definition is_dir (d : str) : M bool :=
  do f <- get_fs;
  ret (match f !! Path d with Some (Dir _) => true | _ => false end).

(** [Path(d).iterdir()], the children as paths. *)
Definition iterdir (d : str) : M (list str) :=
  do f <- get_fs;
  match f !! Path d with
  | Some (Dir names) => ret (joinpath d <$> names)
  | Some (File _) => raise (NotADirectoryError (Path d))
  | None => raise (FileNotFoundError (Path d))
  end.

(** [q] names a regular file. *)
Definition is_regular (f : gmap str node) (q : str) : bool :=
  match f !! q with
  | Some (File _) => true
  | _ => false
  end.

(** The directories [qs] are made where there is nothing yet. *)
Definition make_dirs (qs : list str) (f : gmap str node) : gmap str node :=
  foldr (λ q acc, match acc !! q with
                  | None => <[q := Dir []]> acc
                  | Some _ => acc
                  end) f qs.

(** [Path(d).mkdir(parents=True, exist_ok=True)]: the path cannot be walked
    when a regular file is on the way; an existing directory is accepted, an
    existing file is not; otherwise the directory is made, and so are the
    ancestors that are missing. *)
Definition mkdir (d : str) : M unit :=
  do f <- get_fs;
  if existsb (is_regular f) (ancestors d) then
    raise (NotADirectoryError (Path d))
  else
    match f !! Path d with
    | Some (Dir _) => ret tt
    | Some (File _) => raise (FileExistsError (Path d))
    | None => put_fs (make_dirs (ancestors d ++ [Path d]) f)
    end.

(** [open(p, 'w')], writing [content] and closing: [p] must not be a
    directory, nor be spelled as one, and must lie in a directory.  The
    content is taken to be encodable. *)
Definition write_file (p : str) (content : str) : M unit :=
  do f <- get_fs;
  match f !! p with
  | Some (Dir _) => raise (IsADirectoryError p)
  | _ =>
      if names_directory p then
        raise (if decide (p = []) then FileNotFoundError p
               else IsADirectoryError p)
      else
        match parent p with
        | None => put_fs (<[p := File content]> f)
        | Some q =>
            match f !! q with
            | Some (Dir _) => put_fs (<[p := File content]> f)
            | Some (File _) => raise (NotADirectoryError p)
            | None => raise (FileNotFoundError p)
            end
        end
  end.

(** Writing [content] through the handle of the open file [p] and closing
    it; no path is walked. *)
Definition write_handle (p : str) (content : str) : M unit :=
  do f <- get_fs; put_fs (<[p := File content]> f).

(** Reading the whole of [p]. *)
Definition read_file (p : str) : M str :=
  do f <- get_fs;
  match f !! p with
  | Some (File c) => ret c
  | Some (Dir _) => raise (IsADirectoryError p)
  | None => raise (FileNotFoundError p)
  end.

(** [os.unlink(p)]. *)
Definition unlink (p : str) : M unit :=
  do f <- get_fs;
  match f !! p with
  | Some (File _) => put_fs (delete p f)
  | Some (Dir _) => raise (IsADirectoryError p)
  | None => raise (FileNotFoundError p)
  end.

End OS.

(** ** The model and audio libraries *)

(** What the code uses of torch, transformers and librosa.  Each call
    returns or raises; none touches the file system except through the
    content of the file it is given. *)
Class Whisper := {
  processor_t : Type;
  model_t : Type;
  audio_t : Type;
  features_t : Type;
  ids_t : Type;
  cuda_is_available : bool;
  WhisperProcessor_from_pretrained : str → outcome processor_t;
  WhisperForConditionalGeneration_from_pretrained : str → outcome model_t;
  model_to : model_t → str → outcome model_t;
  librosa_decode : str → N → outcome audio_t;
  processor_call : processor_t → audio_t → N → str → outcome features_t;
  model_generate : model_t → features_t → str → str → outcome ids_t;
  processor_batch_decode : processor_t → ids_t → bool → outcome (list str);
}.

Section Pipeline.
Context {W : Whisper}.

(** [librosa.load(path, sr=sample_rate)]. *)
Definition librosa_load (path : str) (sr : N) : M audio_t :=
  log (AudioLoad path sr);;
  do content <- OS.read_file path;
  lift (librosa_decode content sr).

(** [processor(audio, sampling_rate=sr, return_tensors="pt").to(device)]. *)
Definition extract_features (p : processor_t) (a : audio_t) (sr : N)
    (device : str) : M features_t :=
  log (FeatureExtraction sr);;
  lift (processor_call p a sr device).

(** [model.generate(inputs.input_features, language=.., task=..)]. *)
Definition generate (m : model_t) (x : features_t) (language task : str)
    : M ids_t :=
  log (Generation language task);;
  lift (model_generate m x language task).

(** [processor.batch_decode(ids, skip_special_tokens=..)]. *)
Definition batch_decode (p : processor_t) (i : ids_t) (skip : bool)
    : M (list str) :=
  log (Decoding skip);;
  lift (processor_batch_decode p i skip).

(** [l[0]]. *)
Definition item0 (l : list str) : M str :=
  match l with
  | x :: _ => ret x
  | [] => raise (Exception (py "list index out of range"))
  end.

End Pipeline.

(** ** The batch tool, [swedish_transcriber.py] *)

Module Cli.
Section Cli.
Context {W : Whisper}.

Record SwedishTranscriber := {
  device : str;
  processor : processor_t;
  model : model_t;
}.

(** [SwedishTranscriber.__init__]: a failure to load ends the process. *)
Definition init (model_name : str) : M SwedishTranscriber :=
  let device := if cuda_is_available then py "cuda" else py "cpu" in
  try_except
    (do p <- lift (WhisperProcessor_from_pretrained model_name);
     do m <- lift (WhisperForConditionalGeneration_from_pretrained model_name);
     do m' <- lift (model_to m device);
     ret {| device := device; processor := p; model := m' |})
    (λ e, raise (SystemExit 1)).

Definition load_audio (self : SwedishTranscriber) (audio_path : str)
    (sample_rate : N) : M (option audio_t) :=
  try_except
    (do audio <- librosa_load audio_path sample_rate;
     ret (Some audio))
    (λ e, ret None).

Definition transcribe_audio (self : SwedishTranscriber) (audio_path : str)
    (language : str) : M (option str) :=
  do audio <- load_audio self audio_path 16000;
  match audio with
  | None => ret None
  | Some audio =>
      try_except
        (do inputs <- extract_features (processor self) audio 16000
                        (device self);
         do predicted_ids <- generate (model self) inputs language
                               (py "transcribe");
         do decoded <- batch_decode (processor self) predicted_ids true;
         do transcription <- item0 decoded;
         ret (Some (strip transcription)))
        (λ e, ret None)
  end.

Definition transcribe_file (self : SwedishTranscriber) (input_path : str)
    (output_path : option str) : M bool :=
  do found <- OS.path_exists input_path;
  if negb found then ret false
  else
    do transcription <- transcribe_audio self input_path (py "sv");
    match transcription with
    | None => ret false
    | Some transcription =>
        match output_path with
        | Some (c :: p) =>
            try_except
              (OS.write_file (c :: p) transcription;; ret true)
              (λ e, ret false)
        | _ => ret true
        end
    end.

Definition audio_extensions : list str :=
  [py ".wav"; py ".mp3"; py ".m4a"; py ".flac"; py ".ogg"; py ".aac"].

(** The test of the list comprehension. *)
Definition is_audio (f : str) : Prop := lower (suffix f) ∈ audio_extensions.

Global Instance is_audio_dec f : Decision (is_audio f).
Proof. unfold is_audio. apply _. Defined.

(** The output path of one input of the batch. *)
Definition output_file (output_dir : option str) (audio_file : str)
    : option str :=
  match output_dir with
  | Some (c :: d) =>
      Some (joinpath (c :: d) (stem audio_file ++ py "_transcription.txt"))
  | _ => None
  end.

(** The loop over the audio files. *)
Fixpoint process_each (self : SwedishTranscriber) (output_dir : option str)
    (audio_files : list str) : M unit :=
  match audio_files with
  | [] => ret tt
  | audio_file :: rest =>
      transcribe_file self audio_file (output_file output_dir audio_file);;
      process_each self output_dir rest
  end.

Definition transcribe_directory (self : SwedishTranscriber) (input_dir : str)
    (output_dir : option str) : M unit :=
  do found <- OS.exists_ input_dir;
  if negb found then ret tt
  else
    do entries <- OS.iterdir input_dir;
    let audio_files := filter is_audio entries in
    match audio_files with
    | [] => ret tt
    | _ =>
        match output_dir with
        | Some (c :: d) => OS.mkdir (c :: d)
        | _ => ret tt
        end;;
        process_each self output_dir audio_files
    end.

(** The parsed command line. *)
Record args := {
  arg_input : str;
  arg_output : option str;
  arg_model : str;
}.

Definition main (a : args) : M unit :=
  do transcriber <- init (arg_model a);
  do is_file <- OS.is_file (arg_input a);
  if is_file then
    transcribe_file transcriber (arg_input a) (arg_output a);; ret tt
  else
    do is_dir <- OS.is_dir (arg_input a);
    if is_dir then
      transcribe_directory transcriber (arg_input a) (arg_output a)
    else raise (SystemExit 1).

(** The exit status of the process: 0 when [main] returns, the code of
    [sys.exit], 1 for an exception nobody caught. *)
Definition exit_code (r : result unit) : Z :=
  match r with
  | Ok _ => 0
  | Raise (SystemExit c) => c
  | Raise (Exception _) => 1
  end.

End Cli.
End Cli.

(** ** The web service, [swedish_transcriber_webapp.py] *)

Module Web.

(** JSON values and HTTP responses, as far as the handlers build them. *)
Inductive json :=
  | JNull
  | JBool (b : bool)
  | JStr (s : str).

Inductive body :=
  | JsonBody (obj : list (str * json))
  | TextBody (text : str)
  | FileBody (as_attachment : bool) (download_name mimetype : str)
      (content : str).

Record response := Response {
  resp_body : body;
  resp_status : Z;
}.

Definition jsonify (obj : list (str * json)) : body := JsonBody obj.

(** An uploaded file and a request: [request.files] and [request.args] are
    multi-dicts, read at the first value of a key. *)
Record FileStorage := {
  filename : str;
  stream : str;
}.

Record request := {
  files : list (str * FileStorage);
  args : list (str * str);
}.

Fixpoint get {V} (key : str) (d : list (str * V)) : option V :=
  match d with
  | [] => None
  | (k, v) :: d' => if decide (k = key) then Some v else get key d'
  end.

Section Web.
Context {W : Whisper}.

(** [werkzeug.utils.secure_filename]. *)
Variable secure_filename : str → str.

(** [tempfile.gettempdir()], which is also [app.config['UPLOAD_FOLDER']]. *)
Variable tempdir : str.

Record SwedishTranscriber := {
  device : str;
  processor : processor_t;
  model : model_t;
}.

Definition init (model_name : str) : M SwedishTranscriber :=
  let device := if cuda_is_available then py "cuda" else py "cpu" in
  do p <- lift (WhisperProcessor_from_pretrained model_name);
  do m <- lift (WhisperForConditionalGeneration_from_pretrained model_name);
  do m' <- lift (model_to m device);
  ret {| device := device; processor := p; model := m' |}.

Definition transcribe_audio_file (self : SwedishTranscriber)
    (audio_path : str) (language : str) : M str :=
  try_except
    (do audio <- librosa_load audio_path 16000;
     do inputs <- extract_features (processor self) audio 16000 (device self);
     do predicted_ids <- generate (model self) inputs language
                           (py "transcribe");
     do decoded <- batch_decode (processor self) predicted_ids true;
     do transcription <- item0 decoded;
     ret (strip transcription))
    (λ e, raise (Exception (py "Transcription error: " ++ msg_of e))).

(** The global variables of the module. *)
Record globals := Globals {
  transcriber : option SwedishTranscriber;
  model_loading : bool;
  model_load_error : option str;
}.

Definition startup : globals :=
  {| transcriber := None; model_loading := true; model_load_error := None |}.

(** Assignments to the global variables. *)
Definition set_transcriber (t : SwedishTranscriber) (g : globals) : globals :=
  {| transcriber := Some t;
     model_loading := model_loading g;
     model_load_error := model_load_error g |}.

Definition set_model_loading (b : bool) (g : globals) : globals :=
  {| transcriber := transcriber g;
     model_loading := b;
     model_load_error := model_load_error g |}.

Definition set_model_load_error (m : str) (g : globals) : globals :=
  {| transcriber := transcriber g;
     model_loading := model_loading g;
     model_load_error := Some m |}.

(** [load_model], the body of the background thread. *)
Definition load_model (g : globals) : M globals :=
  try_except
    (do t <- init (py "KBLab/kb-whisper-large");
     let g := set_transcriber t g in
     let g := set_model_loading false g in
     ret g)
    (λ e,
       let g := set_model_load_error (msg_of e) g in
       let g := set_model_loading false g in
       ret g).

(** The first assignment of [load_model], with the call of the constructor
    that leads to it: the handle in the [try] block, the message of the
    failure in the [except] clause. *)
Definition load_model_assign (g : globals) : M globals :=
  try_except
    (do t <- init (py "KBLab/kb-whisper-large");
     ret (set_transcriber t g))
    (λ e, ret (set_model_load_error (msg_of e) g)).

(** [GET /status].  The three globals are read one after the other, so the
    loader may assign in between: [g1], [g2] and [g3] are the globals at the
    three reads. *)
Definition status_reads (g1 g2 g3 : globals) : response :=
  Response
    (jsonify
       [(py "loading", JBool (model_loading g1));
        (py "ready", JBool (match transcriber g2 with
                            | Some _ => true
                            | None => false
                            end));
        (py "error", match model_load_error g3 with
                     | Some m => JStr m
                     | None => JNull
                     end)])
    200.

(** [GET /status] with no assignment between its reads. *)
Definition status (g : globals) : response := status_reads g g g.

(** [POST /transcribe].  [elapsed] is the wall-clock time of the
    transcription formatted with two decimals.  [secure_filename] and
    [os.path.join] return, so [temp_path] is bound whenever the [except]
    clause runs. *)
Definition transcribe (g : globals) (req : request) (elapsed : str)
    : M response :=
  match transcriber g with
  | None =>
      ret (Response (jsonify [(py "error", JStr (py "Model not loaded yet"))])
             500)
  | Some t =>
      match get (py "audio") (files req) with
      | None =>
          ret (Response
                 (jsonify [(py "error", JStr (py "No audio file provided"))])
                 400)
      | Some file =>
          if decide (filename file = []) then
            ret (Response
                   (jsonify [(py "error", JStr (py "No file selected"))]) 400)
          else
            let name := secure_filename (filename file) in
            let temp_path := os_path_join tempdir name in
            try_except
              (OS.write_file temp_path (stream file);;
               do transcription <- transcribe_audio_file t temp_path (py "sv");
               OS.unlink temp_path;;
               ret (Response
                      (jsonify
                         [(py "transcription", JStr transcription);
                          (py "processing_time",
                           JStr (elapsed ++ py " seconds"))])
                      200))
              (λ e,
                 do found <- OS.path_exists temp_path;
                 (if found then OS.unlink temp_path else ret tt);;
                 ret (Response (jsonify [(py "error", JStr (msg_of e))]) 500))
      end
  end.

(** [tempfile.NamedTemporaryFile(mode='w', suffix=.., delete=False)]: the
    first of the random [names] whose path is free is created, empty, in the
    directory [gettempdir] has found usable. *)
Fixpoint NamedTemporaryFile (names : list str) (suffix : str) : M str :=
  match names with
  | [] =>
      raise (Exception
               (py "[Errno 17] No usable temporary file name found"))
  | n :: rest =>
      let file := os_path_join tempdir (py "tmp" ++ n ++ suffix) in
      do f <- get_fs;
      match f !! file with
      | None => put_fs (<[file := File []]> f);; ret file
      | Some _ => NamedTemporaryFile rest suffix
      end
  end.

(** [send_file(path, as_attachment=.., download_name=.., mimetype=..)]. *)
Definition send_file (path : str) (as_attachment : bool)
    (download_name mimetype : str) : M response :=
  do content <- OS.read_file path;
  ret (Response (FileBody as_attachment download_name mimetype content) 200).

(** [GET /download].  [names] are the random names the temporary file
    module draws. *)
Definition download (req : request) (names : list str) : M response :=
  let text := default [] (get (py "text") (args req)) in
  let filename := default (py "transcription")
                    (get (py "filename") (args req)) in
  if decide (text = []) then
    ret (Response (TextBody (py "No text to download")) 400)
  else
    do temp_file <- NamedTemporaryFile names (py ".txt");
    OS.write_handle temp_file text;;
    let base_name := stem filename in
    let download_filename := base_name ++ py "_transcription.txt" in
    send_file temp_file true download_filename (py "text/plain").

(** What Flask answers: the handler's response, or a 500 page when the
    handler lets an exception through. *)
Definition dispatch (handler : M response) (w : world) : response * world :=
  match handler w with
  | (Ok r, w') => (r, w')
  | (Raise _, w') =>
      (Response (TextBody (py "Internal Server Error")) 500, w')
  end.

(** *** The running service *)

(** [main] starts one thread that runs [load_model] and then serves
    requests, each in a thread of its own.  The loader thread is in the
    constructor, or between its two assignments, or has returned. *)
Inductive thread :=
  | Constructing
  | Assigned
  | Returned.

Record server := Server {
  glob : globals;
  loader : thread;
  env : world;
}.

(** The loader thread has not returned yet. *)
Definition loader_pending (s : server) : bool :=
  match loader s with
  | Returned => false
  | _ => true
  end.

Definition boot (w : world) : server :=
  {| glob := startup; loader := Constructing; env := w |}.

Inductive call :=
  | GetStatus
  | PostTranscribe (req : request) (elapsed : str)
  | GetDownload (req : request) (names : list str).

Definition handle (c : call) (g : globals) : M response :=
  match c with
  | GetStatus => ret (status g)
  | PostTranscribe req elapsed => transcribe g req elapsed
  | GetDownload req names => download req names
  end.

(** One step of the service: the loader thread makes its next assignment,
    or a request is served.  No handler assigns a global; [transcribe] uses
    the handle alone, which is assigned once, and the reads of [status] are
    taken apart in [status_reads]. *)
Inductive step : server → server → Prop :=
  | step_assign s g w :
      loader s = Constructing →
      load_model_assign (glob s) (env s) = (Ok g, w) →
      step s {| glob := g; loader := Assigned; env := w |}
  | step_return s :
      loader s = Assigned →
      step s {| glob := set_model_loading false (glob s);
                loader := Returned; env := env s |}
  | step_call s c r w :
      dispatch (handle c (glob s)) (env s) = (r, w) →
      step s {| glob := glob s; loader := loader s; env := w |}.

(** The states a state leads to, in any number of steps. *)
Inductive steps : server → server → Prop :=
  | steps_refl s : steps s s
  | steps_step s s' s'' : steps s s' → step s' s'' → steps s s''.

End Web.
End Web.

(** * The vocabulary of the properties *)

(** No white space at either end. *)
Definition trimmed (s : str) : Prop :=
  (∀ c, head s = Some c → isspace c = false)
  ∧ (∀ c, last s = Some c → isspace c = false).

(** What the claim asks of a transcription result. *)
Definition nonempty_trimmed (t : str) : Prop := t ≠ [] ∧ trimmed t.

(** [wp m Q w]: running [m] in [w] ends, with a result and in a world that
    satisfy [Q]. *)
Definition wp {A} (m : M A) (Q : result A → world → Prop) (w : world) : Prop :=
  Q (m w).1 (m w).2.
Arguments wp : simpl never.

(** The JSON answer [{'error': msg}] with a status code. *)
Definition error_response (msg : string) (code : Z) : Web.response :=
  Web.Response (Web.jsonify [(py "error", Web.JStr (py msg))]) code.

(** The path of the temporary file with the random name [n]. *)
Definition temp_name (tempdir n suffix : str) : str :=
  os_path_join tempdir (py "tmp" ++ n ++ suffix).

(** The attachment a download answers with. *)
Definition attachment (filename text : str) : Web.response :=
  Web.Response
    (Web.FileBody true (stem filename ++ py "_transcription.txt")
       (py "text/plain") text)
    200.

(** The default of [model_name]. *)
Definition default_model : str := py "KBLab/kb-whisper-large".

(** The body of a status report. *)
Definition report (loading ready : bool) (error : Web.json) : Web.response :=
  Web.Response
    (Web.jsonify [(py "loading", Web.JBool loading);
                  (py "ready", Web.JBool ready);
                  (py "error", error)])
    200.

(** What pathlib keeps as a component of a path. *)
Definition is_part (x : str) : Prop := x ≠ [] ∧ x ≠ [dot].

(** The ending of the name of an output file. *)
Definition transcription_txt : str := py "_transcription.txt".

(** The files a trace loads, in order. *)
Definition loads (tr : list stage) : list str :=
  omap (λ s, match s with AudioLoad p _ => Some p | _ => None end) tr.

(** The output path of [f] in the output directory [o]. *)
Definition out_path (o f : str) : str :=
  joinpath o (stem f ++ py "_transcription.txt").

(** The output directory [o] and the directories it lies in. *)
Definition lineage (o : str) : list str := ancestors o ++ [Path o].

(** The file system once the output directory [o] is there. *)
Definition with_output_dir (o : str) (f : gmap str node) : gmap str node :=
  match f !! Path o with
  | None => OS.make_dirs (lineage o) f
  | Some _ => f
  end.

(** A file can be opened for writing at [p]: [p] is no directory, is not
    spelled as one, and the directory it lies in is there. *)
Definition writable (f : gmap str node) (p : str) : bool :=
  match f !! p with
  | Some (Dir _) => false
  | _ =>
      if names_directory p then false
      else
        match parent p with
        | None => true
        | Some q => if f !! q is Some (Dir _) then true else false
        end
  end.

(** The audio files of a directory with the entries [names]. *)
Definition audio_files (d : str) (names : list str) : list str :=
  filter Cli.is_audio (joinpath d <$> names).


Section Vocabulary.
Context {W : Whisper}.

(** The globals between the two assignments of the loader: the model
    handle when the model loaded, the message of the failure otherwise, and
    the loading flag still set. *)
Definition assigned (w0 : world) : Web.globals :=
  match (Web.init default_model w0).1 with
  | Ok t => Web.Globals (Some t) true None
  | Raise e => Web.Globals None true (Some (msg_of e))
  end.

(** The globals once the loader has run: the model handle when the model
    loaded, the message of the failure otherwise. *)
Definition settled (w0 : world) : Web.globals :=
  match (Web.init default_model w0).1 with
  | Ok t => Web.Globals (Some t) false None
  | Raise e => Web.Globals None false (Some (msg_of e))
  end.

(** The globals of the service while its loader is at [l]. *)
Definition globals_at (w0 : world) (l : Web.thread) : Web.globals :=
  match l with
  | Web.Constructing => Web.startup
  | Web.Assigned => assigned w0
  | Web.Returned => settled w0
  end.

(** The reports of /status over a load with the result [r], in the order
    in which they can be given. *)
Definition reports {A} (r : result A) : list Web.response :=
  match r with
  | Ok _ => [report true false Web.JNull;
             report true true Web.JNull;
             report false true Web.JNull]
  | Raise e => [report true false Web.JNull;
                report true false (Web.JStr (msg_of e));
                report false false (Web.JStr (msg_of e))]
  end.

(** How far the loader is. *)
Definition progress (l : Web.thread) : nat :=
  match l with
  | Web.Constructing => 0
  | Web.Assigned => 1
  | Web.Returned => 2
  end.

Section Service.
Variable secure_filename : str → str.
Variable tempdir : str.

(** The states the service reaches from its start in world [w0]. *)
Inductive reachable (w0 : world) : Web.server → Prop :=
  | reachable_boot : reachable w0 (Web.boot w0)
  | reachable_step s s' :
      reachable w0 s →
      Web.step secure_filename tempdir s s' →
      reachable w0 s'.

End Service.

(** The text the pipeline of the batch tool yields for a node of the file
    system, [None] when a stage fails. *)
Definition transcription (self : Cli.SwedishTranscriber)
    (entry : option node) (language : str) : option str :=
  match entry with
  | Some (File content) =>
      match librosa_decode content 16000 with
      | Returns audio =>
          match processor_call (Cli.processor self) audio 16000
                  (Cli.device self) with
          | Returns inputs =>
              match model_generate (Cli.model self) inputs language
                      (py "transcribe") with
              | Returns ids =>
                  match processor_batch_decode (Cli.processor self) ids
                          true with
                  | Returns (t :: _) => Some (strip t)
                  | _ => None
                  end
              | Fails _ => None
              end
          | Fails _ => None
          end
      | Fails _ => None
      end
  | _ => None
  end.

(** What transcribing one file does to the file system: the text is written
    when there is one, an output path is given and a file can be opened
    there. *)
Definition write_one (self : Cli.SwedishTranscriber)
    (output_path : option str) (acc : gmap str node) (f : str)
    : gmap str node :=
  match acc !! f with
  | None => acc
  | Some _ =>
      match transcription self (acc !! f) (py "sv"), output_path with
      | Some t, Some (c :: p) =>
          if writable acc (c :: p) then <[c :: p := File t]> acc else acc
      | _, _ => acc
      end
  end.

(** What one file of the batch does to the file system. *)
Definition write_output (self : Cli.SwedishTranscriber)
    (output_dir : option str) (acc : gmap str node) (f : str)
    : gmap str node :=
  write_one self (Cli.output_file output_dir f) acc f.

(** The transcriber of the service, seen as one of the batch tool: the same
    device, processor and model. *)
Definition as_cli (self : Web.SwedishTranscriber) : Cli.SwedishTranscriber :=
  {| Cli.device := Web.device self;
     Cli.processor := Web.processor self;
     Cli.model := Web.model self |}.

End Vocabulary.

Arguments transcription : simpl never.
Arguments Cli.process_each : simpl never.
Arguments OS.make_dirs : simpl never.
Arguments ancestors : simpl never.
Arguments parent : simpl never.
Arguments names_directory : simpl never.
Arguments lineage : simpl never.
Arguments writable : simpl never.

(** ** Sample libraries and worlds *)

(** A back end that loads and "transcribes" a file to its own content; an
    empty file does not decode. *)
Definition echo : Whisper := {|
  processor_t := unit;
  model_t := unit;
  audio_t := str;
  features_t := str;
  ids_t := str;
  cuda_is_available := false;
  WhisperProcessor_from_pretrained := λ _, Returns tt;
  WhisperForConditionalGeneration_from_pretrained := λ _, Returns tt;
  model_to := λ m _, Returns m;
  librosa_decode := λ c _,
    if decide (c = []) then Fails (py "empty file") else Returns c;
  processor_call := λ _ a _ _, Returns a;
  model_generate := λ _ x _ _, Returns x;
  processor_batch_decode := λ _ i _, Returns [i];
|}.

(** A back end whose model cannot be fetched. *)
Definition offline : Whisper := {|
  processor_t := unit;
  model_t := unit;
  audio_t := str;
  features_t := str;
  ids_t := str;
  cuda_is_available := false;
  WhisperProcessor_from_pretrained := λ _, Fails (py "no network");
  WhisperForConditionalGeneration_from_pretrained := λ _, Returns tt;
  model_to := λ m _, Returns m;
  librosa_decode := λ c _, Returns c;
  processor_call := λ _ a _ _, Returns a;
  model_generate := λ _ x _ _, Returns x;
  processor_batch_decode := λ _ i _, Returns [i];
|}.

Definition cli_echo : Cli.SwedishTranscriber (W := echo) :=
  @Cli.Build_SwedishTranscriber echo (py "cpu") tt tt.

Definition web_echo : Web.SwedishTranscriber (W := echo) :=
  @Web.Build_SwedishTranscriber echo (py "cpu") tt tt.

(** A recording the model hears nothing in: its decoded text is blank. *)
Definition silence_world : world :=
  World {[ py "silence.wav" := File (py "  ") ]} [].

Definition empty_world : world := World ∅ [].

Definition ready_echo : Web.globals (W := echo) :=
  Web.Globals (Some web_echo) false None.

Definition no_audio_request : Web.request :=
  {| Web.files := []; Web.args := [] |}.

Definition unnamed_upload_request : Web.request :=
  {| Web.files := [(py "audio", {| Web.filename := []; Web.stream := [] |})];
     Web.args := [] |}.

Definition clip_upload_request : Web.request :=
  {| Web.files := [(py "audio", {| Web.filename := py "clip.wav";
                                   Web.stream := py " hej " |})];
     Web.args := [] |}.

(** A directory with two audio files, one of them empty, and notes. *)
Definition batch_world : world :=
  World
    (<[py "in" := Dir [py "a.WAV"; py "notes.txt"; py "b.mp3"]]>
       (<[py "in/a.WAV" := File (py " hej ")]>
          (<[py "in/notes.txt" := File (py "todo")]>
             (<[py "in/b.mp3" := File []]> ∅))))
    [].

(** A directory with one audio file, next to a regular file. *)
Definition clobber_world : world :=
  World
    (<[py "in" := Dir [py "a.wav"]]>
       (<[py "in/a.wav" := File (py "hej")]>
          (<[py "notes.txt" := File (py "todo")]> ∅)))
    [].

Definition clobber_args : Cli.args :=
  {| Cli.arg_input := py "in";
     Cli.arg_output := Some (py "notes.txt");
     Cli.arg_model := default_model |}.

Definition hej_request : Web.request :=
  {| Web.files := [];
     Web.args := [(py "text", py "Hej"); (py "filename", py "clip.mp3")] |}.

(** A stand-in for [secure_filename] in the samples: it keeps the ASCII
    letters and digits and the characters [.], [_] and [-]. *)
Definition keep_safe (s : str) : str :=
  filter (λ c, (0x30 ≤ c ≤ 0x39 ∨ 0x41 ≤ c ≤ 0x5A ∨ 0x61 ≤ c ≤ 0x7A
                ∨ c = 0x2E ∨ c = 0x5F ∨ c = 0x2D)%N) s.

(** An upload whose name has no character that is kept. *)
Definition odd_upload_request : Web.request :=
  {| Web.files := [(py "audio", {| Web.filename := py "???";
                                   Web.stream := py "hej" |})];
     Web.args := [] |}.

(** The upload folder, as a directory of the file system. *)
Definition tmp_world : world := World {[ py "/tmp/" := Dir [] ]} [].

Definition upload_world : world := World {[ py "/tmp" := Dir [] ]} [].

Definition text_only_request : Web.request :=
  {| Web.files := []; Web.args := [(py "text", py "Hej")] |}.

(** The globals after a load that failed without network. *)
Definition failed_offline : Web.globals (W := offline) :=
  Web.Globals None false (Some (py "no network")).

Definition single_file_args : Cli.args :=
  {| Cli.arg_input := py "in/a.WAV";
     Cli.arg_output := Some (py "out.txt");
     Cli.arg_model := default_model |}.

(** * Lemmas *)

(** ** Properties of the string operations *)

Section Strings.

Lemma lstrip_head s c : head (lstrip s) = Some c → isspace c = false.
Proof.
  induction s as [|x s IH]; simpl; [done|].
  destruct (isspace x) eqn:E; [done|].
  simpl. by intros [= <-].
Qed.

Lemma lstrip_split s :
  ∃ pre, s = pre ++ lstrip s ∧ Forall (λ c, isspace c = true) pre.
Proof.
  induction s as [|x s (pre & Hs & Hpre)]; simpl.
  - by exists [].
  - destruct (isspace x) eqn:E.
    + exists (x :: pre). split; [by rewrite Hs at 1|by constructor].
    + by exists [].
Qed.

Lemma lstrip_last s c : last (lstrip s) = Some c → last s = Some c.
Proof.
  destruct (lstrip_split s) as (pre & Hs & _). intros Hl.
  rewrite Hs, last_app, Hl. done.
Qed.

Lemma rstrip_last s c : last (rstrip s) = Some c → isspace c = false.
Proof. unfold rstrip. rewrite last_reverse. apply lstrip_head. Qed.

Lemma rstrip_head s c : head (rstrip s) = Some c → head s = Some c.
Proof.
  unfold rstrip. rewrite head_reverse. intros Hl%lstrip_last.
  by rewrite last_reverse in Hl.
Qed.

Lemma strip_trimmed s : trimmed (strip s).
Proof.
  split; intros c Hc.
  - apply rstrip_head in Hc. by apply lstrip_head in Hc.
  - by apply rstrip_last in Hc.
Qed.

Lemma lstrip_id s : (∀ c, head s = Some c → isspace c = false) → lstrip s = s.
Proof.
  destruct s as [|x s]; [done|]. intros Hh. simpl.
  by rewrite (Hh x eq_refl).
Qed.

Lemma strip_of_trimmed s : trimmed s → strip s = s.
Proof.
  intros [Hh Hl]. unfold strip, rstrip. rewrite (lstrip_id s Hh).
  rewrite lstrip_id; [apply reverse_involutive|].
  intros c. rewrite head_reverse. apply Hl.
Qed.

End Strings.

(** ** Reasoning about computations *)

Section Wp.
Context {A B : Type}.
Implicit Types (Q : result A → world → Prop) (w : world).

Lemma wp_ret (a : A) Q w : Q (Ok a) w → wp (ret a) Q w.
Proof. done. Qed.

Lemma wp_raise e Q w : Q (Raise e) w → wp (raise e) Q w.
Proof. done. Qed.

Lemma wp_bind (m : M B) (k : B → M A) Q w :
  wp m (λ r w', match r with
                | Ok b => wp (k b) Q w'
                | Raise e => Q (Raise e) w'
                end) w →
  wp (bind m k) Q w.
Proof. unfold wp, bind. by destruct (m w) as [[b|e] w']. Qed.

Lemma wp_try (m : M A) (h : exn → M A) Q w :
  wp m (λ r w', match r with
                | Raise (Exception msg) => wp (h (Exception msg)) Q w'
                | _ => Q r w'
                end) w →
  wp (try_except m h) Q w.
Proof. unfold wp, try_except. by destruct (m w) as [[b|[msg|c]] w']. Qed.

Lemma wp_lift (o : outcome A) Q w :
  match o with
  | Returns a => Q (Ok a) w
  | Fails msg => Q (Raise (Exception msg)) w
  end →
  wp (lift o) Q w.
Proof. unfold wp, lift. by destruct o. Qed.

Lemma wp_mono (m : M A) Q (Q' : result A → world → Prop) w :
  wp m Q w → (∀ r w', Q r w' → Q' r w') → wp m Q' w.
Proof. unfold wp. eauto. Qed.

End Wp.

Lemma wp_eq {A} (m : M A) r w w' :
  wp m (λ r0 w0, r0 = r ∧ w0 = w') w → m w = (r, w').
Proof. unfold wp. destruct (m w) as [r0 w0]. cbn. by intros [-> ->]. Qed.

Lemma wp_get_fs Q w : Q (Ok (fs w)) w → wp get_fs Q w.
Proof. done. Qed.

Lemma wp_put_fs f Q w : Q (Ok tt) (World f (trace w)) → wp (put_fs f) Q w.
Proof. done. Qed.

Lemma wp_log s Q w : Q (Ok tt) (World (fs w) (trace w ++ [s])) → wp (log s) Q w.
Proof. done. Qed.

(** One step of symbolic execution; a [match] is decided by a hypothesis
    about what it inspects when there is one. *)
Ltac wp_step :=
  lazymatch goal with
  | |- wp (bind _ _) _ _ => apply wp_bind
  | |- wp (try_except _ _) _ _ => apply wp_try
  | |- wp (ret _) _ _ => apply wp_ret
  | |- wp (raise _) _ _ => apply wp_raise
  | |- wp (lift ?o) _ _ => apply wp_lift; destruct o eqn:?
  | |- wp get_fs _ _ => apply wp_get_fs
  | |- wp (put_fs _) _ _ => apply wp_put_fs
  | |- wp (log _) _ _ => apply wp_log
  | |- wp (match ?x with _ => _ end) _ _ =>
      first [ match goal with
              | Hx : ?y = _ |- _ =>
                  lazymatch x with context [y] => rewrite Hx end
              end
            | destruct x eqn:? ]
  end; cbn.

Ltac wp_run := repeat wp_step.

(** ** Properties of the file system operations *)

Section FileSystem.

(** Opening a file for writing either writes it or raises and leaves the
    world as it is. *)
Lemma write_file_spec p content w :
  wp (OS.write_file p content)
     (λ r w',
        if writable (fs w) p
        then r = Ok tt ∧ w' = World (<[p := File content]> (fs w)) (trace w)
        else (∃ msg, r = Raise (Exception msg)) ∧ w' = w) w.
Proof.
  unfold OS.write_file, writable, NotADirectoryError, FileNotFoundError,
    IsADirectoryError, os_error.
  destruct w as [f tr]. wp_run; try case_decide; eauto.
Qed.

(** A file can be opened at a path that is no directory, is not spelled as
    one, and lies in a directory that is there. *)
Lemma writable_spec f p :
  writable f p = true
  ↔ (∀ l, f !! p ≠ Some (Dir l))
    ∧ names_directory p = false
    ∧ (∀ q, parent p = Some q → ∃ l, f !! q = Some (Dir l)).
Proof.
  unfold writable. split.
  - intros Hw. split; [|split].
    + intros l Hp. by rewrite Hp in Hw.
    + destruct (names_directory p); [|done]. by destruct (f !! p) as [[?|?]|].
    + intros q Hq. rewrite Hq in Hw.
      destruct (f !! p) as [[?|?]|]; [|done|];
        destruct (names_directory p); try done;
        destruct (f !! q) as [[?|l]|]; eauto; done.
  - intros (Hdir & -> & Hparent).
    assert (Hq : match parent p with
                 | Some q => if f !! q is Some (Dir _) then true else false
                 | None => true
                 end = true).
    { destruct (parent p) as [q|]; [|done].
      destruct (Hparent q eq_refl) as [l ->]. done. }
    destruct (f !! p) as [[?|l]|]; [done|by destruct (Hdir l)|done].
Qed.

Lemma write_file_saved p content w :
  (OS.write_file p content w).1 = Ok tt →
  OS.write_file p content w
  = (Ok tt, World (<[p := File content]> (fs w)) (trace w)).
Proof.
  intros Hsave. pose proof (write_file_spec p content w) as Hspec.
  unfold wp in Hspec. destruct (writable (fs w) p).
  - destruct Hspec as [Hr Hw]. rewrite <-Hr, <-Hw.
    by destruct (OS.write_file _ _ _).
  - destruct Hspec as [[msg Hr] _]. congruence.
Qed.

Lemma make_dirs_cons q qs f :
  OS.make_dirs (q :: qs) f
  = match OS.make_dirs qs f !! q with
    | None => <[q := Dir []]> (OS.make_dirs qs f)
    | Some _ => OS.make_dirs qs f
    end.
Proof. done. Qed.

Lemma make_dirs_present qs f p :
  is_Some (f !! p) → OS.make_dirs qs f !! p = f !! p.
Proof.
  intros Hp. induction qs as [|q qs IH]; [done|]. rewrite make_dirs_cons.
  destruct (OS.make_dirs qs f !! q) eqn:Hq; [done|].
  destruct (decide (q = p)) as [->|]; [|by rewrite lookup_insert_ne].
  rewrite IH in Hq. rewrite Hq in Hp. by destruct Hp.
Qed.



Lemma existsb_is_regular f qs :
  existsb (OS.is_regular f) qs = false
  ↔ ∀ q c, q ∈ qs → f !! q ≠ Some (File c).
Proof.
  induction qs as [|q qs IH]; cbn.
  - split; [|done]. by intros _ q c ?%elem_of_nil.
  - rewrite orb_false_iff, IH. unfold OS.is_regular. split.
    + intros [Hq Hqs] x c [->|Hin]%elem_of_cons; [|by apply Hqs].
      by destruct (f !! q) as [[?|?]|].
    + intros Hall. split.
      * destruct (f !! q) as [[c|?]|] eqn:Hq; [|done|done].
        destruct (Hall q c); [by left|done].
      * intros x c Hin. apply Hall. by right.
Qed.

End FileSystem.

(** ** Properties of the pipeline *)

Section PipelineProperties.
Context {W : Whisper}.

(** The batch tool's transcription returns [None] or a trimmed string and
    never raises. *)
Lemma cli_transcribe_audio_result self path language w :
  wp (Cli.transcribe_audio self path language)
     (λ r _, match r with
             | Ok None => True
             | Ok (Some t) => trimmed t
             | Raise _ => False
             end) w.
Proof.
  unfold Cli.transcribe_audio, Cli.load_audio, librosa_load, OS.read_file,
    extract_features, generate, batch_decode, item0.
  wp_run; auto using strip_trimmed.
Qed.

(** The service's transcription returns a trimmed string or raises an
    exception whose message starts with ["Transcription error: "]. *)
Lemma web_transcribe_audio_file_result self path language w :
  wp (Web.transcribe_audio_file self path language)
     (λ r _, match r with
             | Ok t => trimmed t
             | Raise e => ∃ m, e = Exception (py "Transcription error: " ++ m)
             end) w.
Proof.
  unfold Web.transcribe_audio_file, librosa_load, OS.read_file,
    extract_features, generate, batch_decode, item0.
  wp_run; eauto using strip_trimmed.
Qed.

(** A transcription that returns has run the four stages in order, with the
    task "transcribe" and the language it was given, and has left the file
    system as it was. *)
Lemma web_transcribe_stages self path language w :
  wp (Web.transcribe_audio_file self path language)
     (λ r w',
        fs w' = fs w
        ∧ ∀ t, r = Ok t →
               trace w' = trace w ++ [AudioLoad path 16000;
                                      FeatureExtraction 16000;
                                      Generation language (py "transcribe");
                                      Decoding true]) w.
Proof.
  unfold Web.transcribe_audio_file, librosa_load, OS.read_file,
    extract_features, generate, batch_decode, item0.
  wp_run; (split; [done|]); intros t' ?; simplify_eq.
  by rewrite <-!app_assoc.
Qed.

End PipelineProperties.

(** ** The transcribe endpoint *)

Section TranscribeEndpoint.
Context {W : Whisper}.
Variable secure_filename : str → str.
Variable tempdir : str.

Local Abbreviation transcribe := (Web.transcribe secure_filename tempdir).

Lemma transcribe_not_ready g req elapsed w :
  Web.transcriber g = None →
  transcribe g req elapsed w = (Ok (error_response "Model not loaded yet" 500), w).
Proof. intros Hg. unfold Web.transcribe. by rewrite Hg. Qed.

Lemma transcribe_no_audio g t req elapsed w :
  Web.transcriber g = Some t →
  Web.get (py "audio") (Web.files req) = None →
  transcribe g req elapsed w
  = (Ok (error_response "No audio file provided" 400), w).
Proof. intros Hg Hf. unfold Web.transcribe. by rewrite Hg, Hf. Qed.

Lemma transcribe_no_filename g t req file elapsed w :
  Web.transcriber g = Some t →
  Web.get (py "audio") (Web.files req) = Some file →
  Web.filename file = [] →
  transcribe g req elapsed w = (Ok (error_response "No file selected" 400), w).
Proof.
  intros Hg Hf Hn. unfold Web.transcribe. rewrite Hg, Hf.
  by destruct (decide _).
Qed.

(** The pipeline of the service reads the file system and does not change
    it; what it raises is an [Exception]. *)
Lemma transcribe_audio_file_frame self path language w :
  wp (Web.transcribe_audio_file self path language)
     (λ r w', fs w' = fs w ∧ ∀ code, r ≠ Raise (SystemExit code)) w.
Proof.
  unfold Web.transcribe_audio_file, librosa_load, OS.read_file,
    extract_features, generate, batch_decode, item0.
  wp_run; done.
Qed.

(** Once the upload is saved, the handler returns a response and the
    temporary path is free again. *)
Lemma transcribe_cleans_up g t req file elapsed w :
  Web.transcriber g = Some t →
  Web.get (py "audio") (Web.files req) = Some file →
  Web.filename file ≠ [] →
  let temp_path := os_path_join tempdir (secure_filename (Web.filename file)) in
  (OS.write_file temp_path (Web.stream file) w).1 = Ok tt →
  wp (transcribe g req elapsed)
     (λ r w', (∃ resp, r = Ok resp)
              ∧ fs w' = delete temp_path (fs w)) w.
Proof.
  intros Hg Hf Hn temp_path Hsave. unfold Web.transcribe.
  rewrite Hg, Hf. destruct (decide _) as [|_]; [done|]. fold temp_path.
  assert (Hsaved : wp (OS.write_file temp_path (Web.stream file))
            (λ r w', r = Ok tt
                     ∧ w' = World (<[temp_path:=File (Web.stream file)]> (fs w))
                              (trace w)) w).
  { unfold wp. by rewrite write_file_saved. }
  apply wp_try, wp_bind. eapply wp_mono; [apply Hsaved|].
  intros r w1 [-> ->]. apply wp_bind.
  eapply wp_mono; [apply transcribe_audio_file_frame|].
  intros r w2 [Hfs Hex]. cbn in Hfs.
  assert (Hl : fs w2 !! temp_path = Some (File (Web.stream file)))
    by (rewrite Hfs; apply lookup_insert_eq).
  assert (Hdel : delete temp_path (fs w2) = delete temp_path (fs w))
    by (rewrite Hfs; apply delete_insert_eq).
  assert (Hfound : bool_decide (is_Some (fs w2 !! temp_path)) = true)
    by (apply bool_decide_eq_true_2; rewrite Hl; eauto).
  destruct r as [transcription|[msg|code]]; [| |by destruct (Hex code)].
  all: unfold OS.path_exists, OS.unlink; wp_run; eauto.
Qed.

End TranscribeEndpoint.

(** ** The download endpoint *)

Section DownloadEndpoint.
Variable tempdir : str.

Lemma NamedTemporaryFile_spec names suffix w :
  wp (Web.NamedTemporaryFile tempdir names suffix)
     (λ r w',
        match r with
        | Ok p => fs w !! p = None
                  ∧ w' = World (<[p := File []]> (fs w)) (trace w)
        | Raise _ => ∀ n, n ∈ names → fs w !! temp_name tempdir n suffix ≠ None
        end) w.
Proof.
  induction names as [|n names IH]; cbn.
  - wp_run. intros n Hn. by apply elem_of_nil in Hn.
  - wp_run.
    + eapply wp_mono; [apply IH|]. intros [p|e] w'; [done|].
      intros Hall n' [-> | Hn']%elem_of_cons; [|by auto].
      unfold temp_name. congruence.
    + done.
Qed.

Lemma download_spec req names text w :
  Web.get (py "text") (Web.args req) = Some text →
  text ≠ [] →
  wp (Web.download tempdir req names)
     (λ r w',
        match r with
        | Ok resp =>
            resp = attachment
                     (default (py "transcription")
                        (Web.get (py "filename") (Web.args req))) text
            ∧ ∃ p, fs w !! p = None
                   ∧ w' = World (<[p := File text]> (fs w)) (trace w)
        | Raise _ => ∀ n, n ∈ names → fs w !! temp_name tempdir n (py ".txt") ≠ None
        end) w.
Proof.
  intros Htext Hne. unfold Web.download. rewrite Htext. cbn.
  case_decide; [done|].
  apply wp_bind. eapply wp_mono; [apply NamedTemporaryFile_spec|].
  intros [p|e] w' Hp; [|done]. destruct Hp as [Hfree ->].
  assert (Hnew : ∀ c, <[p:=File c]> (fs w) !! p = Some (File c))
    by (intros c; apply lookup_insert_eq).
  unfold OS.write_handle, Web.send_file, OS.read_file.
  do 7 wp_step. rewrite lookup_insert_eq.
  wp_run. split; [done|]. exists p. split; [done|].
  by rewrite insert_insert_eq.
Qed.

Lemma download_no_text req names w :
  default [] (Web.get (py "text") (Web.args req)) = [] →
  Web.download tempdir req names w
  = (Ok (Web.Response (Web.TextBody (py "No text to download")) 400), w).
Proof. intros Ht. unfold Web.download. by rewrite Ht. Qed.

End DownloadEndpoint.

(** ** Readiness of the service *)

Section Readiness.
Context {W : Whisper}.
Variable secure_filename : str → str.
Variable tempdir : str.

(** Loading the model does not depend on the world and leaves it as it is. *)
Lemma init_world model_name w0 w :
  Web.init model_name w = ((Web.init model_name w0).1, w)
  ∧ ∀ code, (Web.init model_name w0).1 ≠ Raise (SystemExit code).
Proof.
  unfold Web.init, bind, lift, ret. cbn.
  destruct (WhisperProcessor_from_pretrained model_name); cbn; [|done].
  destruct (WhisperForConditionalGeneration_from_pretrained model_name);
    cbn; [|done].
  by destruct (model_to _ _).
Qed.

(** The first assignment of the loader, from the globals of the start. *)
Lemma load_model_assign_startup w0 w :
  Web.load_model_assign Web.startup w = (Ok (assigned w0), w).
Proof.
  unfold Web.load_model_assign, assigned, default_model, try_except, bind, ret.
  destruct (init_world (py "KBLab/kb-whisper-large") w0 w) as [-> Hexit].
  cbn. destruct (Web.init _ w0).1 as [t|[msg|code]]; cbn;
    [done|done|by destruct (Hexit code)].
Qed.

(** The loader as a whole is its two assignments, one after the other. *)
Lemma load_model_assignments g w :
  Web.load_model g w
  = (do g' <- Web.load_model_assign g;
     ret (Web.set_model_loading false g')) w.
Proof.
  unfold Web.load_model, Web.load_model_assign, try_except, bind, ret.
  destruct (Web.init _ w) as [[t|[msg|code]] w']; done.
Qed.

Lemma return_assigned w0 :
  Web.set_model_loading false (assigned w0) = settled w0.
Proof. unfold assigned, settled. by destruct (Web.init default_model w0).1. Qed.

Lemma load_model_startup w0 w :
  Web.load_model Web.startup w = (Ok (settled w0), w).
Proof.
  rewrite load_model_assignments. unfold bind.
  by rewrite (load_model_assign_startup w0), <-return_assigned.
Qed.

(** The globals of a state the service reaches are those of the place its
    loader is at. *)
Lemma reachable_globals w0 s :
  reachable secure_filename tempdir w0 s →
  Web.glob s = globals_at w0 (Web.loader s).
Proof.
  induction 1 as [|s s' _ IH Hstep]; [done|].
  destruct Hstep as [s g w Hat Hassign|s Hat|s c r w Hcall]; cbn.
  - rewrite IH, Hat in Hassign. cbn in Hassign.
    rewrite (load_model_assign_startup w0) in Hassign. congruence.
  - rewrite IH, Hat. apply return_assigned.
  - done.
Qed.

Lemma status_startup : Web.status Web.startup = report true false Web.JNull.
Proof. done. Qed.

Lemma status_assigned w0 :
  Web.status (assigned w0)
  = match (Web.init default_model w0).1 with
    | Ok _ => report true true Web.JNull
    | Raise e => report true false (Web.JStr (msg_of e))
    end.
Proof. unfold assigned. by destruct (Web.init default_model w0).1. Qed.

Lemma status_settled w0 :
  Web.status (settled w0)
  = match (Web.init default_model w0).1 with
    | Ok _ => report false true Web.JNull
    | Raise e => report false false (Web.JStr (msg_of e))
    end.
Proof. unfold settled. by destruct (Web.init default_model w0).1. Qed.

Lemma step_shape s s' :
  Web.step secure_filename tempdir s s' →
  (Web.glob s' = Web.glob s ∧ Web.loader s' = Web.loader s)
  ∨ (Web.loader s = Web.Constructing ∧ Web.loader s' = Web.Assigned)
  ∨ (Web.loader s = Web.Assigned ∧ Web.loader s' = Web.Returned).
Proof. destruct 1; cbn; auto. Qed.

Lemma loader_runs w0 s :
  reachable secure_filename tempdir w0 s →
  Web.loader s ≠ Web.Returned →
  ∃ s', Web.step secure_filename tempdir s s'
        ∧ progress (Web.loader s') = S (progress (Web.loader s)).
Proof.
  intros Hr Hp. pose proof (reachable_globals w0 s Hr) as Hg.
  destruct (Web.loader s) eqn:Hat; [| |done].
  - exists (Web.Server (assigned w0) Web.Assigned (Web.env s)). split; [|done].
    apply Web.step_assign; [done|]. rewrite Hg.
    apply load_model_assign_startup.
  - eexists. split; [by apply Web.step_return|done].
Qed.

Lemma steps_reachable w0 s s' :
  reachable secure_filename tempdir w0 s →
  Web.steps secure_filename tempdir s s' →
  reachable secure_filename tempdir w0 s'.
Proof.
  intros Hr. induction 1 as [|s s' s'' _ IH Hstep]; [done|].
  eapply reachable_step; [by apply IH|done].
Qed.

(** The loader never goes back. *)
Lemma steps_progress s s' :
  Web.steps secure_filename tempdir s s' →
  (progress (Web.loader s) ≤ progress (Web.loader s'))%nat.
Proof.
  induction 1 as [|s s' s'' _ IH Hstep]; [done|].
  destruct (step_shape _ _ Hstep) as [[_ Heq]|[[Hl Hl']|[Hl Hl']]].
  - by rewrite Heq.
  - rewrite Hl' in *. rewrite Hl in IH. cbn in *. lia.
  - rewrite Hl' in *. rewrite Hl in IH. cbn in *. lia.
Qed.

(** The reads of /status, taken at three places of the loader one after the
    other, give one of the three reports of the load. *)
Lemma status_reads_at w0 l1 l2 l3 :
  (progress l1 ≤ progress l2)%nat →
  (progress l2 ≤ progress l3)%nat →
  Web.status_reads (globals_at w0 l1) (globals_at w0 l2) (globals_at w0 l3)
  ∈ reports (Web.init default_model w0).1.
Proof.
  intros H12 H23. unfold globals_at, assigned, settled, reports.
  destruct (Web.init default_model w0).1 as [t|e];
    destruct l1, l2, l3; cbn in H12, H23; try lia;
    unfold Web.status_reads, report; cbn;
    repeat first [by left | right].
Qed.

End Readiness.

(** ** Properties of the path operations *)

Section Paths.

Lemma split_nonempty sep s : split sep s ≠ [].
Proof.
  destruct s as [|x s]; cbn; [done|].
  case_decide; [done|]. by destruct (split sep s).
Qed.

Lemma split_sep_free sep s x : x ∈ split sep s → sep ∉ x.
Proof.
  revert x. induction s as [|c s IH]; cbn; intros x Hx.
  - apply list_elem_of_singleton in Hx as ->. apply not_elem_of_nil.
  - case_decide.
    + apply elem_of_cons in Hx as [-> | Hx]; [apply not_elem_of_nil|auto].
    + destruct (split sep s) as [|w ws].
      * apply list_elem_of_singleton in Hx as ->.
        apply not_elem_of_cons. split; [done|apply not_elem_of_nil].
      * apply elem_of_cons in Hx as [-> | Hx].
        -- apply not_elem_of_cons. split; [done|]. apply IH. by left.
        -- apply IH. by right.
Qed.

Lemma split_app_sep sep a b :
  split sep (a ++ sep :: b) = split sep a ++ split sep b.
Proof.
  induction a as [|c a IH]; cbn.
  - by case_decide.
  - case_decide; [by rewrite IH|]. rewrite IH.
    pose proof (split_nonempty sep a). by destruct (split sep a).
Qed.

Lemma split_free sep x : sep ∉ x → split sep x = [x].
Proof.
  induction x as [|c x IH]; cbn; [done|].
  intros [Hc Hx]%not_elem_of_cons. case_decide; [done|]. by rewrite IH.
Qed.

Lemma split_join sep ps :
  ps ≠ [] → Forall (λ p, sep ∉ p) ps → split sep (join [sep] ps) = ps.
Proof.
  induction ps as [|p ps IH]; [done|]. intros _ Hall.
  apply Forall_cons in Hall as [Hp Hps].
  destruct ps as [|q ps]; [by apply split_free|].
  change (join [sep] (p :: q :: ps)) with (p ++ sep :: join [sep] (q :: ps)).
  rewrite split_app_sep, split_free, IH by done. done.
Qed.

Lemma parts_spec p x : x ∈ parts p → is_part x ∧ slash ∉ x.
Proof.
  unfold parts. intros [Hx Hin]%list_elem_of_filter.
  split; [done|]. by eapply split_sep_free.
Qed.

Lemma filter_is_part ps :
  Forall is_part ps → filter (λ x, x ≠ [] ∧ x ≠ [dot]) ps = ps.
Proof.
  induction 1 as [|x ps Hx _ IH]; [done|].
  rewrite filter_cons_True by done. by f_equal.
Qed.

Lemma root_cases p : root p = [] ∨ root p = [slash] ∨ root p = [slash; slash].
Proof.
  destruct p as [|a [|b [|c p]]]; cbn; repeat case_decide; auto.
Qed.

Lemma parts_cons_slash p : parts (slash :: p) = parts p.
Proof.
  unfold parts. change (slash :: p) with ([] ++ slash :: p).
  rewrite split_app_sep, filter_app.
  change (split slash []) with [[] : str].
  rewrite filter_cons_False; [done|]. by intros [? _].
Qed.

(** Normalising a path keeps its parts. *)
Lemma parts_Path p : parts (Path p) = parts p.
Proof.
  assert (Hall : Forall (λ x, is_part x ∧ slash ∉ x) (parts p))
    by (apply Forall_forall; intros x; apply parts_spec).
  apply Forall_and in Hall as [Hpart Hfree].
  unfold Path. destruct (parts p) as [|q ps] eqn:Hps.
  - destruct (root_cases p) as [-> | [-> | ->]]; done.
  - assert (Hjoin : parts (join [slash] (q :: ps)) = q :: ps).
    { unfold parts. rewrite split_join by done. by apply filter_is_part. }
    assert (Hroot : ∀ r, r = [] ∨ r = [slash] ∨ r = [slash; slash] →
              parts (r ++ join [slash] (q :: ps)) = q :: ps).
    { intros r [-> | [-> | ->]]; cbn [app]; by rewrite ?parts_cons_slash. }
    destruct (root p) eqn:Hr; [apply (Hroot []); auto|].
    rewrite <-Hr. apply Hroot, root_cases.
Qed.

Lemma Path_nonempty p : Path p ≠ [].
Proof.
  unfold Path. destruct (root p) as [|a r]; [|done].
  destruct (parts p) as [|q ps] eqn:Hps; [done|].
  assert (Hq : q ∈ parts p) by (rewrite Hps; by left).
  apply parts_spec in Hq as [[Hq _] _]. cbn.
  destruct q; [done|]. by destruct ps.
Qed.

Lemma name_Path p : name (Path p) = name p.
Proof. unfold name. by rewrite parts_Path. Qed.

Lemma parts_app_part a x :
  slash ∉ x → is_part x →
  parts (a ++ slash :: x) = parts a ++ [x] ∧ parts x = [x].
Proof.
  intros Hfree Hpart. unfold parts.
  rewrite split_app_sep, filter_app, (split_free slash x) by done.
  by rewrite (filter_is_part [x]) by (by apply Forall_singleton).
Qed.

(** Joining a component to a directory appends it to the parts. *)
Lemma parts_joinpath d x :
  slash ∉ x → is_part x → parts (joinpath d x) = parts d ++ [x].
Proof.
  intros Hfree Hpart. unfold joinpath. rewrite parts_Path.
  destruct (parts_app_part (Path d) x Hfree Hpart) as [Hsep Hx].
  rewrite parts_Path in Hsep.
  unfold os_path_join. case_decide as Hhead.
  { destruct x as [|c x]; [by destruct Hpart|]. simplify_eq/=.
    destruct Hfree. by left. }
  case_decide as Hlast; [|done].
  destruct Hlast as [Hnil | Hlast]; [by destruct (Path_nonempty d)|].
  apply last_Some in Hlast as [a Ha]. rewrite Ha, <-app_assoc.
  change ([slash] ++ x) with (slash :: x).
  destruct (parts_app_part a x Hfree Hpart) as [-> _].
  f_equal. rewrite <-(parts_Path d), Ha.
  unfold parts. change (a ++ [slash]) with (a ++ slash :: []).
  rewrite split_app_sep, filter_app.
  change (split slash []) with [[] : str].
  rewrite filter_cons_False, filter_nil, app_nil_r; [done|]. by intros [? _].
Qed.

Lemma name_joinpath d x : slash ∉ x → is_part x → name (joinpath d x) = x.
Proof.
  intros Hfree Hpart. unfold name. rewrite parts_joinpath by done.
  by rewrite last_snoc.
Qed.

Lemma joinpath_ne_dir d x : slash ∉ x → is_part x → joinpath d x ≠ Path d.
Proof.
  intros Hfree Hpart Heq. apply (f_equal parts) in Heq.
  rewrite parts_joinpath, parts_Path in Heq by done.
  apply (f_equal length) in Heq. rewrite length_app in Heq. cbn in Heq. lia.
Qed.

Lemma rfind_app c a b :
  rfind c (a ++ b)
  = match rfind c b with
    | Some i => Some (length a + i)%nat
    | None => rfind c a
    end.
Proof.
  induction a as [|x a IH]; cbn; [by destruct (rfind c b)|].
  rewrite IH. destruct (rfind c b); reflexivity.
Qed.

Lemma suffix_transcription_txt x :
  suffix_of_name (x ++ transcription_txt) = py ".txt".
Proof.
  unfold suffix_of_name. rewrite rfind_app.
  change (rfind dot transcription_txt) with (Some 14%nat).
  rewrite length_app. change (length transcription_txt) with 18%nat.
  rewrite decide_True by lia.
  rewrite drop_app, drop_ge, Nat.add_comm, Nat.add_sub by lia. done.
Qed.

Lemma name_free p : slash ∉ name p.
Proof.
  unfold name. destruct (last (parts p)) as [x|] eqn:Hl; cbn.
  - apply last_Some_elem_of in Hl. by apply parts_spec in Hl as [_ Hl].
  - apply not_elem_of_nil.
Qed.

Lemma stem_free p : slash ∉ stem p.
Proof.
  unfold stem, stem_of_name. pose proof (name_free p) as Hn.
  destruct (rfind dot (name p)) as [i|]; [|done].
  case_decide; [|done].
  intros (j & Hj & _)%elem_of_take. apply Hn.
  by eapply list_elem_of_lookup_2.
Qed.

(** An output of the batch is named after the stem of its input and is no
    audio file. *)
Lemma output_name out f :
  name (joinpath out (stem f ++ transcription_txt))
  = stem f ++ transcription_txt.
Proof.
  apply name_joinpath.
  - apply not_elem_of_app. split; [apply stem_free|]. compute_done.
  - split; intros Heq; apply (f_equal length) in Heq;
      rewrite length_app in Heq;
      change (length transcription_txt) with 18%nat in Heq; cbn in Heq; lia.
Qed.

Lemma output_not_audio out f :
  ¬ Cli.is_audio (joinpath out (stem f ++ transcription_txt)).
Proof.
  unfold Cli.is_audio, suffix. rewrite output_name, suffix_transcription_txt.
  compute_done.
Qed.

(** *** The directories a path lies in *)

















End Paths.

(** ** The batch *)

Section Batch.
Context {W : Whisper}.

Lemma loads_app tr1 tr2 : loads (tr1 ++ tr2) = loads tr1 ++ loads tr2.
Proof. apply omap_app. Qed.

Lemma transcribe_audio_spec self path language w :
  wp (Cli.transcribe_audio self path language)
     (λ r w',
        r = Ok (transcription self (fs w !! path) language)
        ∧ fs w' = fs w
        ∧ loads (trace w') = loads (trace w) ++ [path]) w.
Proof.
  unfold Cli.transcribe_audio, Cli.load_audio, librosa_load, OS.read_file,
    extract_features, generate, batch_decode, item0, transcription.
  wp_run.
  all: rewrite ?loads_app; cbn; rewrite ?app_nil_r.
  all: repeat match goal with Hx : _ = _ |- _ => rewrite Hx end; done.
Qed.

Lemma transcribe_audio_result self path language w :
  (Cli.transcribe_audio self path language w).1
  = Ok (transcription self (fs w !! path) language).
Proof. by destruct (transcribe_audio_spec self path language w) as [-> _]. Qed.

Lemma transcribe_file_spec self input output w :
  wp (Cli.transcribe_file self input output)
     (λ r w',
        (∃ b, r = Ok b)
        ∧ fs w' = write_one self output (fs w) input
        ∧ loads (trace w')
          = loads (trace w)
            ++ (if fs w !! input is Some _ then [input] else [])) w.
Proof.
  unfold Cli.transcribe_file, OS.path_exists, write_one.
  do 3 wp_step.
  destruct (fs w !! input) as [n|] eqn:Hin; cbn.
  2:{ wp_run. rewrite app_nil_r. eauto. }
  wp_step. apply wp_bind. eapply wp_mono; [apply transcribe_audio_spec|].
  intros r w' (-> & Hfs & Hloads). rewrite Hin in *.
  destruct (transcription self (Some n) (py "sv")) as [t|]; cbn;
    [|wp_run; eauto].
  destruct output as [[|c p]|]; cbn; [wp_run; eauto| |wp_run; eauto].
  apply wp_try, wp_bind. eapply wp_mono; [apply write_file_spec|].
  intros r w1. rewrite Hfs.
  destruct (writable (fs w) (c :: p)).
  - intros [-> ->]. wp_run. eauto.
  - intros [[msg ->] ->]. wp_run. eauto.
Qed.

(** Writing keeps what exists. *)
Lemma write_one_exists self output acc f g :
  is_Some (acc !! g) → is_Some (write_one self output acc f !! g).
Proof.
  intros Hg. unfold write_one.
  destruct (acc !! f); [|done].
  destruct (transcription _ _ _); [|done].
  destruct output as [[|c p]|]; [done| |done].
  destruct (writable acc (c :: p)); [|done].
  destruct (decide (c :: p = g)) as [->|];
    [rewrite lookup_insert_eq; eauto|by rewrite lookup_insert_ne].
Qed.

Lemma process_each_cons self out f files :
  Cli.process_each self out (f :: files)
  = (Cli.transcribe_file self f (Cli.output_file out f);;
     Cli.process_each self out files).
Proof. done. Qed.

Lemma process_each_spec self out files w :
  wp (Cli.process_each self out files)
     (λ r w',
        r = Ok tt
        ∧ fs w' = foldl (write_output self out) (fs w) files
        ∧ (Forall (λ f, is_Some (fs w !! f)) files →
           loads (trace w') = loads (trace w) ++ files)) w.
Proof.
  revert w. induction files as [|f files IH]; intros w.
  - apply wp_ret. by rewrite app_nil_r.
  - rewrite process_each_cons.
    apply wp_bind. eapply wp_mono; [apply transcribe_file_spec|].
    intros r w1 ([b ->] & Hfs & Hloads).
    eapply wp_mono; [apply IH|].
    intros r w2 (-> & Hfs2 & Hloads2). split; [done|].
    split; [by rewrite Hfs2, Hfs|].
    intros [[n Hf] Hall]%Forall_cons. rewrite Hf in Hloads.
    rewrite Hloads2, Hloads, <-app_assoc; [done|].
    rewrite Hfs. eapply Forall_impl; [exact Hall|].
    intros g. apply write_one_exists.
Qed.

Lemma output_file_given o f :
  o ≠ [] → Cli.output_file (Some o) f = Some (out_path o f).
Proof. by destruct o. Qed.

Lemma out_path_not_audio o f : ¬ Cli.is_audio (out_path o f).
Proof. apply output_not_audio. Qed.



(** One file either leaves the file system as it is or writes its text to its
    output path. *)
Lemma write_output_cases self o acc f :
  o ≠ [] →
  write_output self (Some o) acc f
  = match acc !! f, transcription self (acc !! f) (py "sv") with
    | Some _, Some t =>
        if writable acc (out_path o f) then <[out_path o f := File t]> acc
        else acc
    | _, _ => acc
    end.
Proof.
  intros Ho. unfold write_output, write_one. rewrite output_file_given by done.
  destruct (acc !! f); [|done].
  destruct (transcription _ _ _); [|done].
  pose proof (Path_nonempty (os_path_join (Path o)
                               (stem f ++ py "_transcription.txt"))) as Hne.
  fold (joinpath o (stem f ++ py "_transcription.txt")) in Hne.
  fold (out_path o f) in Hne.
  by destruct (out_path o f) as [|c p].
Qed.

Section Fold.
Variable self : Cli.SwedishTranscriber.
Variable o : str.
Hypothesis o_given : o ≠ [].

Local Abbreviation run_batch := (foldl (write_output self (Some o))).

Lemma write_output_frame acc f p :
  out_path o f ≠ p → write_output self (Some o) acc f !! p = acc !! p.
Proof.
  intros Hp. rewrite write_output_cases by done.
  destruct (acc !! f); [|done].
  destruct (transcription _ _ _); [|done].
  destruct (writable _ _); by rewrite ?lookup_insert_ne.
Qed.

Lemma write_output_audio acc f g :
  Cli.is_audio g → write_output self (Some o) acc f !! g = acc !! g.
Proof.
  intros Hg. apply write_output_frame. intros <-.
  by apply (out_path_not_audio o f).
Qed.



Lemma run_batch_audio files fs1 g :
  Cli.is_audio g → run_batch fs1 files !! g = fs1 !! g.
Proof.
  intros Hg. induction files as [|f files IH] using rev_ind; [done|].
  by rewrite foldl_snoc, write_output_audio.
Qed.






End Fold.

Lemma with_output_dir_present o f p :
  is_Some (f !! p) → with_output_dir o f !! p = f !! p.
Proof.
  intros Hp. unfold with_output_dir. destruct (f !! Path o); [done|].
  by apply make_dirs_present.
Qed.

Lemma with_output_dir_exists o f g :
  is_Some (f !! g) → is_Some (with_output_dir o f !! g).
Proof. intros Hg. by rewrite with_output_dir_present. Qed.



(** What [mkdir] does, from the regular files on its way. *)
Lemma mkdir_spec o w :
  wp (OS.mkdir o)
     (λ r w',
        if existsb (OS.is_regular (fs w)) (lineage o)
        then (∃ msg, r = Raise (Exception msg)) ∧ w' = w
        else r = Ok tt
             ∧ w' = World (with_output_dir o (fs w)) (trace w)) w.
Proof.
  unfold OS.mkdir. destruct w as [f tr]. apply wp_bind, wp_get_fs. cbn.
  unfold lineage. rewrite existsb_app. cbn [existsb]. rewrite orb_false_r.
  destruct (existsb (OS.is_regular f) (ancestors o)); cbn.
  - apply wp_raise. unfold NotADirectoryError, os_error. eauto.
  - unfold with_output_dir, OS.is_regular, lineage.
    destruct (f !! Path o) as [[c|l]|]; cbn.
    + apply wp_raise. unfold FileExistsError, os_error. eauto.
    + by apply wp_ret.
    + by apply wp_put_fs.
Qed.

Lemma transcribe_directory_spec self d o names w :
  fs w !! Path d = Some (Dir names) →
  o ≠ [] →
  audio_files d names ≠ [] →
  (∀ q c, q ∈ lineage o → fs w !! q ≠ Some (File c)) →
  wp (Cli.transcribe_directory self d (Some o))
     (λ r w',
        r = Ok tt
        ∧ fs w' = foldl (write_output self (Some o))
                    (with_output_dir o (fs w)) (audio_files d names)
        ∧ (Forall (λ f, is_Some (fs w !! f)) (audio_files d names) →
           loads (trace w') = loads (trace w) ++ audio_files d names)) w.
Proof.
  intros Hd Ho Hfiles Hout.
  assert (Hfound : negb (bool_decide (is_Some (fs w !! Path d))) = false)
    by (rewrite Hd, bool_decide_eq_true_2; eauto).
  apply existsb_is_regular in Hout.
  unfold audio_files in *.
  destruct (filter Cli.is_audio (joinpath d <$> names)) as [|f files] eqn:Hf;
    [done|].
  destruct o as [|c o]; [done|].
  unfold Cli.transcribe_directory, OS.exists_, OS.path_exists, OS.iterdir.
  wp_run. eapply wp_mono; [apply mkdir_spec|].
  intros r w1. cbn. rewrite Hout. intros [-> ->].
  eapply wp_mono; [apply (process_each_spec _ _ (f :: files))|].
  intros r w' (-> & Hfs & Hloads); cbn in *; split; [done|].
  split; [done|]; intros Hall; apply Hloads.
  eapply Forall_impl; [exact Hall|]. intros g Hg.
  by apply with_output_dir_exists.
Qed.


(** Loading the model for the batch tool: the transcriber, or [sys.exit(1)];
    the world is left as it is. *)
Lemma cli_init_result model_name w :
  (∃ t, Cli.init model_name w = (Ok t, w))
  ∨ Cli.init model_name w = (Raise (SystemExit 1), w).
Proof.
  unfold Cli.init, try_except, bind, lift, ret, raise. cbn.
  destruct (WhisperProcessor_from_pretrained model_name); cbn; [|by right].
  destruct (WhisperForConditionalGeneration_from_pretrained model_name);
    cbn; [|by right].
  destruct (model_to _ _); cbn; [left; eauto|by right].
Qed.





Lemma transcribe_directory_no_audio self d out names w :
  fs w !! Path d = Some (Dir names) →
  audio_files d names = [] →
  Cli.transcribe_directory self d out w = (Ok tt, w).
Proof.
  intros Hd Hfiles. unfold audio_files in Hfiles. apply wp_eq.
  assert (Hfound : negb (bool_decide (is_Some (fs w !! Path d))) = false)
    by (rewrite Hd, bool_decide_eq_true_2; eauto).
  unfold Cli.transcribe_directory, OS.exists_, OS.path_exists, OS.iterdir.
  by wp_run.
Qed.

End Batch.

(** * The claims *)

(** C1, as amended.  A POST /transcribe request without an 'audio' field is
    answered, without a change to the world, with status 400 and the JSON
    body [{'error': 'No audio file provided'}] when the model is ready, and
    with status 500 and the JSON body [{'error': 'Model not loaded yet'}]
    while the transcriber handle is unset. *)
Theorem C1_no_audio_field {W : Whisper} secure_filename tempdir
    (g : Web.globals) req elapsed w :
  Web.get (py "audio") (Web.files req) = None →
  Web.transcribe secure_filename tempdir g req elapsed w
  = (Ok (if Web.transcriber g is Some _
         then error_response "No audio file provided" 400
         else error_response "Model not loaded yet" 500), w).
Proof.
  intros Hreq. destruct (Web.transcriber g) as [t|] eqn:Hg.
  - by eapply transcribe_no_audio.
  - by apply transcribe_not_ready.
Qed.

Lemma C1_no_audio_field_witness :
  Web.get (py "audio") (Web.files no_audio_request) = None
  ∧ Web.transcribe (W := echo) id (py "/tmp") ready_echo no_audio_request
      (py "0.00") empty_world
    = (Ok (error_response "No audio file provided" 400), empty_world).
Proof.
  split; [reflexivity|].
  apply (C1_no_audio_field (W := echo) id (py "/tmp") ready_echo
           no_audio_request (py "0.00") empty_world).
  reflexivity.
Defined.

(** C1 as stated fails: while the model is loading, a request without an
    'audio' field is answered with status 500. *)
Lemma C1_loading_answers_500 :
  Web.get (py "audio") (Web.files no_audio_request) = None
  ∧ Web.resp_status
      (Web.dispatch
         (Web.transcribe (W := echo) id (py "/tmp") Web.startup
            no_audio_request (py "0.00"))
         empty_world).1
    = 500%Z.
Proof. split; reflexivity. Qed.

(** C2, as amended.  Transcription signals a failure or returns a string
    without leading or trailing white space; the string may be empty.  The
    batch tool signals failure by [None] and never raises; the service
    raises an exception whose message starts with "Transcription error: ". *)
Theorem C2_transcription_trimmed {W : Whisper} :
  (∀ self path language w,
     match (Cli.transcribe_audio self path language w).1 with
     | Ok None => True
     | Ok (Some t) => trimmed t
     | Raise _ => False
     end)
  ∧ (∀ self path language w,
       match (Web.transcribe_audio_file self path language w).1 with
       | Ok t => trimmed t
       | Raise e => ∃ m, e = Exception (py "Transcription error: " ++ m)
       end).
Proof.
  split; intros self path language w.
  - apply cli_transcribe_audio_result.
  - apply web_transcribe_audio_file_result.
Qed.

(** C2 as stated fails: a recording whose decoded text is blank is
    transcribed to the empty string, by the batch tool and by the service. *)
Lemma C2_blank_gives_empty_string :
  (Cli.transcribe_audio cli_echo (py "silence.wav") (py "sv")
     silence_world).1 = Ok (Some [])
  ∧ (Web.transcribe_audio_file web_echo (py "silence.wav") (py "sv")
       silence_world).1 = Ok []
  ∧ ¬ nonempty_trimmed [].
Proof. split; [reflexivity|]. split; [reflexivity|]. by intros [? _]. Qed.

(** C3, as amended.  The readiness state is set by the one run of the
    loader, in two assignments that are never taken again: first the model
    handle (the load succeeded) or the message of the failure, then
    loading=false.  /status reports loading=true, ready=false, error=null
    until the first assignment; between the two it reports loading=true
    with ready=true and error=null, or with ready=false and the message;
    after the second it reports loading=false, ready=true, error=null after
    a successful load and loading=false, ready=false and the message after
    a failed one.  A /status call whose three reads are taken while the
    loader goes on gives one of these reports; no request changes the
    state; and the loader, until it has returned, can take its next
    step. *)
Theorem C3_readiness {W : Whisper} secure_filename tempdir w0 s :
  reachable secure_filename tempdir w0 s →
  let load := (Web.init default_model w0).1 in
  Web.status (Web.glob s)
  = match Web.loader s, load with
    | Web.Constructing, _ => report true false Web.JNull
    | Web.Assigned, Ok _ => report true true Web.JNull
    | Web.Assigned, Raise e => report true false (Web.JStr (msg_of e))
    | Web.Returned, Ok _ => report false true Web.JNull
    | Web.Returned, Raise e => report false false (Web.JStr (msg_of e))
    end
  ∧ (∀ s2 s3,
       Web.steps secure_filename tempdir s s2 →
       Web.steps secure_filename tempdir s2 s3 →
       Web.status_reads (Web.glob s) (Web.glob s2) (Web.glob s3)
       ∈ reports load)
  ∧ (∀ s', Web.step secure_filename tempdir s s' →
       (Web.glob s' = Web.glob s ∧ Web.loader s' = Web.loader s)
       ∨ (Web.loader s = Web.Constructing ∧ Web.loader s' = Web.Assigned
          ∧ Web.glob s = Web.startup ∧ Web.glob s' = assigned w0)
       ∨ (Web.loader s = Web.Assigned ∧ Web.loader s' = Web.Returned
          ∧ Web.glob s = assigned w0 ∧ Web.glob s' = settled w0))
  ∧ (Web.loader s ≠ Web.Returned →
     ∃ s', Web.step secure_filename tempdir s s'
           ∧ progress (Web.loader s') = S (progress (Web.loader s))).
Proof.
  intros Hr load. pose proof (reachable_globals _ _ w0 s Hr) as Hg.
  split; [|split; [|split]].
  - rewrite Hg. destruct (Web.loader s); cbn.
    + by destruct load.
    + apply status_assigned.
    + apply status_settled.
  - intros s2 s3 H12 H23.
    pose proof (steps_reachable _ _ w0 s s2 Hr H12) as Hr2.
    pose proof (steps_reachable _ _ w0 s2 s3 Hr2 H23) as Hr3.
    rewrite Hg, (reachable_globals _ _ w0 s2 Hr2),
      (reachable_globals _ _ w0 s3 Hr3).
    apply status_reads_at; by eapply steps_progress.
  - intros s' Hstep.
    pose proof (reachable_globals _ _ w0 s'
                  (reachable_step _ _ w0 s s' Hr Hstep)) as Hg'.
    destruct (step_shape _ _ s s' Hstep) as [?|[[Hl Hl']|[Hl Hl']]];
      [by left|right; left|right; right].
    all: rewrite Hl in Hg; rewrite Hl' in Hg'; done.
  - intros Hp. by apply (loader_runs _ _ w0).
Qed.

Lemma C3_readiness_witness :
  Web.status (Web.glob (Web.boot (W := echo) empty_world))
  = report true false Web.JNull
  ∧ ∃ s', Web.step (W := echo) id (py "/tmp") (Web.boot empty_world) s'
          ∧ progress (Web.loader s') = 1%nat.
Proof.
  destruct (C3_readiness (W := echo) id (py "/tmp") empty_world
              (Web.boot empty_world) (reachable_boot _ _ _))
    as (Hstatus & _ & _ & Hrun).
  split; [exact Hstatus|]. apply Hrun. discriminate.
Defined.

(** C3 as stated fails: when the model has loaded and the loader has not
    yet cleared the loading flag, /status reports loading=true together
    with ready=true. *)
Lemma C3_ready_while_loading :
  reachable (W := echo) id (py "/tmp") empty_world
    (Web.Server (Web.Globals (Some web_echo) true None) Web.Assigned
       empty_world)
  ∧ Web.status (W := echo) (Web.Globals (Some web_echo) true None)
    = report true true Web.JNull.
Proof.
  split; [|reflexivity].
  apply (reachable_step id (py "/tmp") empty_world (Web.boot empty_world));
    [apply reachable_boot|].
  by apply (Web.step_assign id (py "/tmp") (Web.boot empty_world)).
Qed.

(** C4.  When POST /transcribe has saved the upload to its temporary path,
    the handler returns a response and the temporary path holds no file any
    more, whether the transcription succeeded or raised; nothing else in the
    file system has changed. *)
Theorem C4_temp_file_removed {W : Whisper} secure_filename tempdir
    (g : Web.globals) t req file elapsed w :
  Web.transcriber g = Some t →
  Web.get (py "audio") (Web.files req) = Some file →
  Web.filename file ≠ [] →
  let temp_path := os_path_join tempdir (secure_filename (Web.filename file)) in
  let after := Web.transcribe secure_filename tempdir g req elapsed w in
  (OS.write_file temp_path (Web.stream file) w).1 = Ok tt →
  (∃ resp, after.1 = Ok resp)
  ∧ fs after.2 !! temp_path = None
  ∧ fs after.2 = delete temp_path (fs w).
Proof.
  intros Hg Hf Hn temp_path after Hsave.
  destruct (transcribe_cleans_up secure_filename tempdir g t req file elapsed
              w Hg Hf Hn Hsave) as [Hresp Hfs].
  fold temp_path after in Hresp, Hfs.
  split; [done|]. split; [|done]. rewrite Hfs. apply lookup_delete_eq.
Qed.

Lemma C4_temp_file_removed_witness :
  (Web.transcribe (W := echo) id (py "/tmp") ready_echo clip_upload_request
     (py "0.00") upload_world).1
  = Ok (Web.Response
          (Web.jsonify [(py "transcription", Web.JStr (py "hej"));
                        (py "processing_time", Web.JStr (py "0.00 seconds"))])
          200)
  ∧ fs (Web.transcribe (W := echo) id (py "/tmp") ready_echo
          clip_upload_request (py "0.00") upload_world).2
    !! py "/tmp/clip.wav" = None.
Proof.
  split; [reflexivity|].
  refine (proj1 (proj2
    (C4_temp_file_removed (W := echo) id (py "/tmp") ready_echo web_echo
       clip_upload_request
       {| Web.filename := py "clip.wav"; Web.stream := py " hej " |}
       (py "0.00") upload_world _ _ _ _))); [reflexivity..|discriminate|reflexivity].
Defined.




(** C6.  A GET /download request with a non-empty text T and a filename F,
    for which a temporary name is free, is answered with status 200 by a
    text/plain attachment whose download name is the stem of F followed by
    "_transcription.txt" and whose content is T. *)
Theorem C6_download_attachment tempdir req names text filename w :
  Web.get (py "text") (Web.args req) = Some text →
  text ≠ [] →
  Web.get (py "filename") (Web.args req) = Some filename →
  (∃ n, n ∈ names ∧ fs w !! temp_name tempdir n (py ".txt") = None) →
  (Web.download tempdir req names w).1
  = Ok (Web.Response
          (Web.FileBody true (stem filename ++ py "_transcription.txt")
             (py "text/plain") text)
          200).
Proof.
  intros Htext Hne Hname (n & Hn & Hfree).
  pose proof (download_spec tempdir req names text w Htext Hne) as Hspec.
  unfold wp in Hspec.
  destruct (Web.download tempdir req names w).1 as [resp|e].
  - destruct Hspec as [-> _]. by rewrite Hname.
  - by destruct (Hspec n Hn).
Qed.

Lemma C6_download_attachment_witness :
  (Web.download (py "/tmp") hej_request [py "k3x9q2ab"] empty_world).1
  = Ok (Web.Response
          (Web.FileBody true (py "clip_transcription.txt") (py "text/plain")
             (py "Hej"))
          200).
Proof.
  apply (C6_download_attachment (py "/tmp") hej_request [py "k3x9q2ab"]
           (py "Hej") (py "clip.mp3") empty_world);
    [reflexivity|discriminate|reflexivity|].
  exists (py "k3x9q2ab"). split; [by left|reflexivity].
Defined.

(** C7 fails on the code.  With a model that loads and an input that is a
    directory with an audio file, an output argument that names an existing
    regular file makes the creation of the output directory raise; nothing
    catches the exception and the process ends with status 1. *)
Theorem C7_output_is_a_file_exits_1 :
  (Cli.init (W := echo) default_model clobber_world).1 = Ok cli_echo
  ∧ (OS.is_dir (py "in") clobber_world).1 = Ok true
  ∧ (Cli.main (W := echo) clobber_args clobber_world).1
    = Raise (FileExistsError (py "notes.txt"))
  ∧ Cli.exit_code (Cli.main (W := echo) clobber_args clobber_world).1 = 1%Z.
Proof. repeat split; reflexivity. Qed.

(** C8.  While the transcriber handle is unset, POST /transcribe answers
    with status 500 and [{'error': 'Model not loaded yet'}]; the world is as
    before: no pipeline stage has run and no file was written. *)
Theorem C8_not_ready {W : Whisper} secure_filename tempdir
    (g : Web.globals) req elapsed w :
  Web.transcriber g = None →
  Web.transcribe secure_filename tempdir g req elapsed w
  = (Ok (error_response "Model not loaded yet" 500), w).
Proof. apply transcribe_not_ready. Qed.

Lemma C8_not_ready_witness :
  Web.transcribe (W := echo) id (py "/tmp") Web.startup clip_upload_request
    (py "0.00") empty_world
  = (Ok (error_response "Model not loaded yet" 500), empty_world).
Proof.
  apply (C8_not_ready (W := echo) id (py "/tmp") Web.startup
           clip_upload_request (py "0.00") empty_world).
  reflexivity.
Defined.

(** C9.  A GET /download call that answers with status 200 has created a
    file at a path that was free before, and that file, holding the text
    served, is still there when the handler has returned. *)
Theorem C9_download_leaves_file tempdir req names w resp :
  (Web.download tempdir req names w).1 = Ok resp →
  Web.resp_status resp = 200%Z →
  ∃ p text,
    fs w !! p = None
    ∧ fs (Web.download tempdir req names w).2 !! p = Some (File text)
    ∧ ∃ download_name,
        Web.resp_body resp
        = Web.FileBody true download_name (py "text/plain") text.
Proof.
  intros Hresp Hstatus.
  destruct (Web.get (py "text") (Web.args req)) as [[|c text]|] eqn:Htext.
  1, 3: rewrite download_no_text in Hresp by (by rewrite Htext);
    by simplify_eq/=.
  pose proof (download_spec tempdir req names (c :: text) w Htext
                ltac:(discriminate)) as Hspec.
  unfold wp in Hspec. rewrite Hresp in Hspec.
  destruct Hspec as (-> & p & Hfree & Hw).
  exists p, (c :: text). rewrite Hw. cbn. rewrite lookup_insert_eq. eauto.
Qed.

Lemma C9_download_leaves_file_witness :
  ∃ p text,
    fs empty_world !! p = None
    ∧ fs (Web.download (py "/tmp") hej_request [py "k3x9q2ab"]
            empty_world).2 !! p = Some (File text)
    ∧ ∃ download_name,
        Web.resp_body
          (Web.Response
             (Web.FileBody true (py "clip_transcription.txt")
                (py "text/plain") (py "Hej"))
             200)
        = Web.FileBody true download_name (py "text/plain") text.
Proof.
  apply (C9_download_leaves_file (py "/tmp") hej_request [py "k3x9q2ab"]
           empty_world); reflexivity.
Defined.

(** C10, as amended.  A POST /transcribe request whose 'audio' field has an
    empty filename is answered, without a change to the world (nothing is
    saved, no pipeline stage runs), with status 400 and
    [{'error': 'No file selected'}] when the model is ready, and with status
    500 and [{'error': 'Model not loaded yet'}] while the transcriber handle
    is unset. *)
Theorem C10_no_filename {W : Whisper} secure_filename tempdir
    (g : Web.globals) req file elapsed w :
  Web.get (py "audio") (Web.files req) = Some file →
  Web.filename file = [] →
  Web.transcribe secure_filename tempdir g req elapsed w
  = (Ok (if Web.transcriber g is Some _
         then error_response "No file selected" 400
         else error_response "Model not loaded yet" 500), w).
Proof.
  intros Hreq Hname. destruct (Web.transcriber g) as [t|] eqn:Hg.
  - by eapply transcribe_no_filename.
  - by apply transcribe_not_ready.
Qed.

Lemma C10_no_filename_witness :
  Web.transcribe (W := echo) id (py "/tmp") ready_echo unnamed_upload_request
    (py "0.00") empty_world
  = (Ok (error_response "No file selected" 400), empty_world).
Proof.
  apply (C10_no_filename (W := echo) id (py "/tmp") ready_echo
           unnamed_upload_request
           {| Web.filename := []; Web.stream := [] |}
           (py "0.00") empty_world); reflexivity.
Defined.

(** C10 as stated fails: after a failed load, a request whose 'audio' field
    has an empty filename is answered with status 500. *)
Lemma C10_failed_load_answers_500 :
  Web.get (py "audio") (Web.files unnamed_upload_request)
  = Some {| Web.filename := []; Web.stream := [] |}
  ∧ (Web.load_model (W := offline) Web.startup empty_world).1
    = Ok (Web.Globals None false (Some (py "no network")))
  ∧ Web.resp_status
      (Web.dispatch
         (Web.transcribe (W := offline) id (py "/tmp")
            (Web.Globals None false (Some (py "no network")))
            unnamed_upload_request (py "0.00"))
         empty_world).1
    = 500%Z.
Proof. repeat split; reflexivity. Qed.

(** * Further properties of the code *)

(** ** The batch tool *)

Section BatchTool.
Context {W : Whisper}.

(** What [transcribe_file] returns and writes, from the text of its input. *)
Lemma transcribe_file_outcome self input output w :
  wp (Cli.transcribe_file self input output)
     (λ r w',
        match transcription self (fs w !! input) (py "sv"), output with
        | Some t, Some (c :: p) =>
            if writable (fs w) (c :: p)
            then r = Ok true ∧ fs w' = <[c :: p := File t]> (fs w)
            else r = Ok false ∧ fs w' = fs w
        | Some t, _ => r = Ok true ∧ fs w' = fs w
        | None, _ => r = Ok false ∧ fs w' = fs w
        end) w.
Proof.
  unfold Cli.transcribe_file, OS.path_exists.
  do 3 wp_step.
  destruct (fs w !! input) as [n|] eqn:Hin; cbn.
  2:{ wp_run. by destruct output as [[|??]|]. }
  wp_step. apply wp_bind. eapply wp_mono; [apply transcribe_audio_spec|].
  intros r w' (-> & Hfs & _). rewrite Hin in *.
  destruct (transcription self (Some n) (py "sv")) as [t|]; cbn;
    [|wp_run; by destruct output as [[|??]|]].
  destruct output as [[|c p]|]; cbn; [by wp_run| |by wp_run].
  apply wp_try, wp_bind. eapply wp_mono; [apply write_file_spec|].
  intros r w1. rewrite Hfs.
  destruct (writable (fs w) (c :: p)).
  - intros [-> ->]. by wp_run.
  - intros [[msg ->] ->]. by wp_run.
Qed.

(** A load that fails ends the transcription after the first stage. *)
Lemma transcribe_audio_unloadable self path language w :
  (∀ c a, fs w !! path = Some (File c) → librosa_decode c 16000 ≠ Returns a) →
  wp (Cli.transcribe_audio self path language)
     (λ r w', r = Ok None
              ∧ w' = World (fs w) (trace w ++ [AudioLoad path 16000])) w.
Proof.
  intros Hbad.
  unfold Cli.transcribe_audio, Cli.load_audio, librosa_load, OS.read_file.
  destruct (fs w !! path) as [[c|l]|] eqn:Hp; wp_run; try done.
  by destruct (Hbad c a).
Qed.

(** The stages of a transcription of the batch tool that yields a text. *)
Lemma cli_transcribe_stages self path language w :
  wp (Cli.transcribe_audio self path language)
     (λ r w',
        ∀ t, r = Ok (Some t) →
             trace w' = trace w ++ [AudioLoad path 16000;
                                    FeatureExtraction 16000;
                                    Generation language (py "transcribe");
                                    Decoding true]) w.
Proof.
  unfold Cli.transcribe_audio, Cli.load_audio, librosa_load, OS.read_file,
    extract_features, generate, batch_decode, item0.
  wp_run; intros t' ?; simplify_eq.
  by rewrite <-!app_assoc.
Qed.

(** The service's transcription, from the text of the file. *)
Lemma web_transcribe_audio_file_text self path language w :
  wp (Web.transcribe_audio_file self path language)
     (λ r _,
        match transcription (as_cli self) (fs w !! path) language with
        | Some t => r = Ok t
        | None => ∃ m, r = Raise (Exception (py "Transcription error: " ++ m))
        end) w.
Proof.
  unfold Web.transcribe_audio_file, librosa_load, OS.read_file,
    extract_features, generate, batch_decode, item0, transcription.
  wp_run.
  all: cbn; repeat match goal with Hx : _ = _ |- _ => rewrite Hx end; eauto.
Qed.

(** A batch without an output directory writes nothing. *)
Lemma write_output_none self out acc f :
  (out = None ∨ out = Some []) → write_output self out acc f = acc.
Proof.
  intros Hout. unfold write_output, write_one.
  destruct (acc !! f); [|done]. destruct (transcription _ _ _); [|done].
  by destruct Hout as [-> | ->].
Qed.

Lemma run_batch_none self out files acc :
  (out = None ∨ out = Some []) →
  foldl (write_output self out) acc files = acc.
Proof.
  intros Hout. revert acc. induction files as [|f files IH]; intros acc; cbn;
    [done|]. by rewrite write_output_none, IH.
Qed.

End BatchTool.


(** X2.  When the model does not load, or the input path does not exist, the
    batch tool ends with status 1 and has done nothing: no file is written
    and no stage of the pipeline has run. *)
Theorem X2_early_exit {W : Whisper} a w :
  (∃ e, (Cli.init (Cli.arg_model a) w).1 = Raise e)
  ∨ fs w !! Path (Cli.arg_input a) = None →
  Cli.main a w = (Raise (SystemExit 1), w).
Proof.
  intros Hearly. apply wp_eq. unfold Cli.main. apply wp_bind. unfold wp at 1.
  destruct (cli_init_result (Cli.arg_model a) w) as [[t Hinit]|Hinit];
    rewrite Hinit in *; cbn; [|done].
  destruct Hearly as [[e ?]|Hin]; [done|].
  unfold OS.is_file, OS.is_dir. by wp_run.
Qed.

Lemma X2_early_exit_witness :
  Cli.main (W := offline) clobber_args clobber_world
  = (Raise (SystemExit 1), clobber_world).
Proof.
  apply (X2_early_exit (W := offline) clobber_args clobber_world).
  left. eexists. reflexivity.
Defined.

(** X3.  [transcribe_file] never raises.  It returns [True] exactly when the
    transcription yields a text and the output file, if one is asked for, can
    be opened for writing: its path is no directory, is not spelled as one
    (it does not end with a slash, with "." or with ".."), and lies in a
    directory that is there.  Then the output file holds the text and
    nothing else has changed.  When it returns [False] the file system is as
    before. *)
Theorem X3_transcribe_file {W : Whisper} self input output w :
  let tf := Cli.transcribe_file self input output w in
  let heard := (Cli.transcribe_audio self input (py "sv") w).1 in
  let can_open :=
    match output with
    | Some (c :: p) =>
        (∀ l, fs w !! (c :: p) ≠ Some (Dir l))
        ∧ names_directory (c :: p) = false
        ∧ (∀ q, parent (c :: p) = Some q → ∃ l, fs w !! q = Some (Dir l))
    | _ => True
    end in
  (tf.1 = Ok true ∨ tf.1 = Ok false)
  ∧ (tf.1 = Ok true ↔ (∃ t, heard = Ok (Some t)) ∧ can_open)
  ∧ (tf.1 = Ok false → fs tf.2 = fs w)
  ∧ (∀ t, tf.1 = Ok true → heard = Ok (Some t) →
          fs tf.2 = match output with
                    | Some (c :: p) => <[c :: p := File t]> (fs w)
                    | _ => fs w
                    end).
Proof.
  intros tf heard can_open. subst tf heard can_open.
  pose proof (transcribe_file_outcome self input output w) as Hout.
  unfold wp in Hout. rewrite transcribe_audio_result.
  destruct (transcription self (fs w !! input) (py "sv")) as [t|].
  - destruct output as [[|c p]|].
    1, 3: destruct Hout as [-> ->];
      (split; [by left|]); (split; [split; eauto|]);
      (split; [done|]); by intros ? _ [= <-].
    rewrite <-(writable_spec (fs w) (c :: p)).
    destruct (writable (fs w) (c :: p)); destruct Hout as [-> ->].
    + (split; [by left|]); (split; [split; eauto|]);
        (split; [done|]); by intros ? _ [= <-].
    + split; [by right|]. split; [|done].
      split; [done|]. by intros [_ ?].
  - assert (Hf : (Cli.transcribe_file self input output w).1 = Ok false
                 ∧ fs (Cli.transcribe_file self input output w).2 = fs w)
      by (by destruct output as [[|??]|]).
    destruct Hf as [-> ->]. split; [by right|]. split; [|done].
    split; [done|]. by intros [[? ?] _].
Qed.

(** X4.  When the audio cannot be loaded (the path is no file, or the file
    does not decode), the batch tool's transcription returns [None] after the
    load alone: no stage of the model runs and the file system is as it
    was. *)
Theorem X4_unloadable_audio {W : Whisper} self path language w :
  (∀ c a, fs w !! path = Some (File c) → librosa_decode c 16000 ≠ Returns a) →
  Cli.transcribe_audio self path language w
  = (Ok None, World (fs w) (trace w ++ [AudioLoad path 16000])).
Proof. intros Hbad. by apply wp_eq, transcribe_audio_unloadable. Qed.

Lemma X4_unloadable_audio_witness :
  Cli.transcribe_audio cli_echo (py "in/b.mp3") (py "sv") batch_world
  = (Ok None,
     World (fs batch_world) (trace batch_world
                             ++ [AudioLoad (py "in/b.mp3") 16000])).
Proof.
  apply (X4_unloadable_audio (W := echo) cli_echo (py "in/b.mp3") (py "sv")
           batch_world).
  intros c a [= <-]. discriminate.
Defined.

(** X5.  A transcription that yields a text has run exactly four stages, in
    this order: the load at 16 kHz, the feature extraction at 16 kHz, the
    generation with the language it was given and the task "transcribe", and
    the decoding without special tokens; this holds for the batch tool and for
    the service. *)
Theorem X5_stage_order {W : Whisper} sc sw path language w :
  (∀ t, (Cli.transcribe_audio sc path language w).1 = Ok (Some t) →
        trace (Cli.transcribe_audio sc path language w).2
        = trace w ++ [AudioLoad path 16000; FeatureExtraction 16000;
                      Generation language (py "transcribe"); Decoding true])
  ∧ (∀ t, (Web.transcribe_audio_file sw path language w).1 = Ok t →
          trace (Web.transcribe_audio_file sw path language w).2
          = trace w ++ [AudioLoad path 16000; FeatureExtraction 16000;
                        Generation language (py "transcribe"); Decoding true]).
Proof.
  split.
  - apply cli_transcribe_stages.
  - apply web_transcribe_stages.
Qed.

Lemma X5_stage_order_witness :
  trace (Cli.transcribe_audio cli_echo (py "in/a.WAV") (py "sv")
           batch_world).2
  = [AudioLoad (py "in/a.WAV") 16000; FeatureExtraction 16000;
     Generation (py "sv") (py "transcribe"); Decoding true].
Proof.
  apply (proj1 (X5_stage_order (W := echo) cli_echo web_echo (py "in/a.WAV")
                  (py "sv") batch_world) (py "hej")).
  reflexivity.
Defined.

(** X6.  The two copies of the pipeline agree: on the same file, with the
    same device, processor and model, the service returns a text exactly when
    the batch tool returns that text, and raises exactly when the batch tool
    returns [None]. *)
Theorem X6_pipelines_agree {W : Whisper} (self : Web.SwedishTranscriber)
    path language w :
  match (Cli.transcribe_audio (as_cli self) path language w).1 with
  | Ok (Some t) => (Web.transcribe_audio_file self path language w).1 = Ok t
  | Ok None =>
      ∃ m, (Web.transcribe_audio_file self path language w).1
           = Raise (Exception (py "Transcription error: " ++ m))
  | Raise _ => False
  end.
Proof.
  rewrite transcribe_audio_result.
  apply (web_transcribe_audio_file_text self path language w).
Qed.

(** ** The batch over a directory *)

Section DirectoryBatch.
Context {W : Whisper}.

(** The whole of [transcribe_directory] on an existing directory. *)
Lemma transcribe_directory_world self d out names w :
  fs w !! Path d = Some (Dir names) →
  wp (Cli.transcribe_directory self d out)
     (λ r w',
        match audio_files d names, out with
        | [], _ => r = Ok tt ∧ w' = w
        | _ :: _, Some (c :: o) =>
            if existsb (OS.is_regular (fs w)) (lineage (c :: o))
            then (∃ msg, r = Raise (Exception msg)) ∧ w' = w
            else
              r = Ok tt
              ∧ fs w' = foldl (write_output self out)
                          (with_output_dir (c :: o) (fs w))
                          (audio_files d names)
              ∧ (Forall (λ f, is_Some (fs w !! f)) (audio_files d names) →
                 loads (trace w') = loads (trace w) ++ audio_files d names)
        | _ :: _, _ =>
            r = Ok tt
            ∧ fs w' = fs w
            ∧ (Forall (λ f, is_Some (fs w !! f)) (audio_files d names) →
               loads (trace w') = loads (trace w) ++ audio_files d names)
        end) w.
Proof.
  intros Hd.
  destruct (audio_files d names) as [|f files] eqn:Hfiles.
  { unfold wp.
    by rewrite (transcribe_directory_no_audio self d out names w Hd Hfiles). }
  assert (Hne : audio_files d names ≠ []) by (by rewrite Hfiles).
  assert (Hfound : negb (bool_decide (is_Some (fs w !! Path d))) = false)
    by (rewrite Hd, bool_decide_eq_true_2; eauto).
  assert (Hnone : out = None ∨ out = Some [] →
            wp (Cli.transcribe_directory self d out)
               (λ r w', r = Ok tt ∧ fs w' = fs w
                  ∧ (Forall (λ f, is_Some (fs w !! f)) (f :: files) →
                     loads (trace w') = loads (trace w) ++ f :: files)) w).
  { intros Hout. unfold audio_files in Hfiles.
    unfold Cli.transcribe_directory, OS.exists_, OS.path_exists, OS.iterdir.
    destruct Hout as [-> | ->]; wp_run.
    all: eapply wp_mono; [apply (process_each_spec _ _ (f :: files))|].
    all: intros r w' (-> & Hfs & Hloads); split; [done|].
    all: split; [|done]; rewrite Hfs; apply run_batch_none; auto. }
  destruct out as [[|c o]|]; [apply Hnone; by right| |apply Hnone; by left].
  destruct (existsb (OS.is_regular (fs w)) (lineage (c :: o))) eqn:Hp.
  - unfold audio_files in Hfiles.
    unfold Cli.transcribe_directory, OS.exists_, OS.path_exists, OS.iterdir.
    wp_run. eapply wp_mono; [apply mkdir_spec|].
    intros r w1. cbn. rewrite Hp. intros [[msg ->] ->]. eauto.
  - rewrite <-Hfiles. eapply wp_mono;
      [apply (transcribe_directory_spec self d (c :: o) names w Hd)|];
      [done|done|by apply existsb_is_regular|done].
Qed.

(** The selection of a listing is made on the names of its entries. *)
Lemma audio_files_by_name d names :
  Forall (λ n, is_part n ∧ slash ∉ n) names →
  audio_files d names
  = joinpath d <$> filter (λ n, lower (suffix_of_name n)
                                ∈ Cli.audio_extensions) names.
Proof.
  unfold audio_files. induction 1 as [|n names [Hpart Hfree] _ IH]; [done|].
  assert (Hn : Cli.is_audio (joinpath d n)
               ↔ lower (suffix_of_name n) ∈ Cli.audio_extensions)
    by (unfold Cli.is_audio, suffix; by rewrite name_joinpath).
  rewrite fmap_cons.
  destruct (decide (lower (suffix_of_name n) ∈ Cli.audio_extensions))
    as [Hin|Hin].
  - rewrite (filter_cons_True _ (joinpath d n)) by (by apply Hn).
    rewrite (filter_cons_True _ n) by done. rewrite fmap_cons. by f_equal.
  - rewrite (filter_cons_False _ (joinpath d n)) by (by rewrite Hn).
    by rewrite (filter_cons_False _ n) by done.
Qed.

End DirectoryBatch.

(** X7.  Once the upload is saved, POST /transcribe answers with what the
    pipeline made of the saved file: status 200 with the text it returned,
    trimmed, and the elapsed time followed by " seconds"; or status 500 with
    the message of what it raised, which starts with
    "Transcription error: ". *)
Theorem X7_transcribe_answer {W : Whisper} secure_filename tempdir
    (g : Web.globals) t req file elapsed w :
  Web.transcriber g = Some t →
  Web.get (py "audio") (Web.files req) = Some file →
  Web.filename file ≠ [] →
  let temp_path := os_path_join tempdir (secure_filename (Web.filename file)) in
  let saved := World (<[temp_path := File (Web.stream file)]> (fs w))
                 (trace w) in
  (OS.write_file temp_path (Web.stream file) w).1 = Ok tt →
  match (Web.transcribe_audio_file t temp_path (py "sv") saved).1 with
  | Ok text =>
      (Web.transcribe secure_filename tempdir g req elapsed w).1
      = Ok (Web.Response
              (Web.jsonify
                 [(py "transcription", Web.JStr text);
                  (py "processing_time", Web.JStr (elapsed ++ py " seconds"))])
              200)
      ∧ trimmed text
  | Raise e =>
      ∃ m, e = Exception (py "Transcription error: " ++ m)
           ∧ (Web.transcribe secure_filename tempdir g req elapsed w).1
             = Ok (Web.Response
                     (Web.jsonify
                        [(py "error",
                          Web.JStr (py "Transcription error: " ++ m))])
                     500)
  end.
Proof.
  intros Hg Hf Hn temp_path saved Hsave.
  pose proof (web_transcribe_audio_file_result t temp_path (py "sv") saved)
    as Hresult.
  pose proof (transcribe_audio_file_frame t temp_path (py "sv") saved)
    as [Hfs _].
  unfold wp in Hresult, Hfs.
  assert (Hrun : wp (Web.transcribe secure_filename tempdir g req elapsed)
            (λ r _,
               match (Web.transcribe_audio_file t temp_path (py "sv")
                        saved).1 with
               | Ok text =>
                   r = Ok (Web.Response
                             (Web.jsonify
                                [(py "transcription", Web.JStr text);
                                 (py "processing_time",
                                  Web.JStr (elapsed ++ py " seconds"))])
                             200)
               | Raise e =>
                   r = Ok (Web.Response
                             (Web.jsonify [(py "error", Web.JStr (msg_of e))])
                             500)
               end) w).
  { unfold Web.transcribe. rewrite Hg, Hf. case_decide; [done|].
    fold temp_path.
    assert (Hsaved : wp (OS.write_file temp_path (Web.stream file))
              (λ r w', r = Ok tt ∧ w' = saved) w).
    { unfold wp. by rewrite write_file_saved. }
    apply wp_try, wp_bind. eapply wp_mono; [apply Hsaved|].
    intros r w1 [-> ->]. apply wp_bind. unfold wp at 1.
    destruct (Web.transcribe_audio_file t temp_path (py "sv") saved)
      as [r w2] eqn:Hrun.
    cbn in Hresult, Hfs |- *.
    assert (Hl : fs w2 !! temp_path = Some (File (Web.stream file)))
      by (rewrite Hfs; apply lookup_insert_eq).
    assert (Hfound : bool_decide (is_Some (fs w2 !! temp_path)) = true)
      by (apply bool_decide_eq_true_2; rewrite Hl; eauto).
    destruct r as [text|e]; [|destruct Hresult as [m ->]].
    all: unfold OS.path_exists, OS.unlink; by wp_run. }
  unfold wp in Hrun.
  destruct (Web.transcribe_audio_file t temp_path (py "sv") saved).1
    as [text|e]; [done|].
  destruct Hresult as [m ->]. eauto.
Qed.

Lemma X7_transcribe_answer_witness :
  (Web.transcribe (W := echo) id (py "/tmp") ready_echo clip_upload_request
     (py "0.00") upload_world).1
  = Ok (Web.Response
          (Web.jsonify [(py "transcription", Web.JStr (py "hej"));
                        (py "processing_time", Web.JStr (py "0.00 seconds"))])
          200)
  ∧ trimmed (py "hej").
Proof.
  apply (X7_transcribe_answer (W := echo) id (py "/tmp") ready_echo web_echo
           clip_upload_request
           {| Web.filename := py "clip.wav"; Web.stream := py " hej " |}
           (py "0.00") upload_world);
    [reflexivity|reflexivity|discriminate|reflexivity].
Defined.

(** X8.  When the temporary path of an upload is a directory (the sanitised
    file name is empty, so the path is the upload folder itself), saving
    raises, the clean-up of the [except] clause raises again on the
    directory, and the exception leaves the handler: no JSON answer is built
    and the world is as before. *)
Theorem X8_directory_temp_path {W : Whisper} secure_filename tempdir
    (g : Web.globals) t req file elapsed w l :
  Web.transcriber g = Some t →
  Web.get (py "audio") (Web.files req) = Some file →
  Web.filename file ≠ [] →
  let temp_path := os_path_join tempdir (secure_filename (Web.filename file)) in
  fs w !! temp_path = Some (Dir l) →
  Web.transcribe secure_filename tempdir g req elapsed w
  = (Raise (IsADirectoryError temp_path), w).
Proof.
  intros Hg Hf Hn temp_path Hdir. apply wp_eq.
  unfold Web.transcribe. rewrite Hg, Hf. case_decide; [done|].
  fold temp_path.
  assert (Hfound : bool_decide (is_Some (fs w !! temp_path)) = true)
    by (apply bool_decide_eq_true_2; rewrite Hdir; eauto).
  unfold OS.write_file, OS.path_exists, OS.unlink. by wp_run.
Qed.

Lemma X8_directory_temp_path_witness :
  Web.transcribe (W := echo) keep_safe (py "/tmp") ready_echo
    odd_upload_request (py "0.00") tmp_world
  = (Raise (IsADirectoryError (py "/tmp/")), tmp_world).
Proof.
  apply (X8_directory_temp_path (W := echo) keep_safe (py "/tmp") ready_echo
           web_echo odd_upload_request
           {| Web.filename := py "???"; Web.stream := py "hej" |}
           (py "0.00") tmp_world []);
    [reflexivity|reflexivity|discriminate|reflexivity].
Defined.

(** X9.  A GET /download request with a text and without a 'filename'
    parameter is answered with the attachment named
    "transcription_transcription.txt" that holds the text. *)
Theorem X9_download_default_name tempdir req names text w :
  Web.get (py "text") (Web.args req) = Some text →
  text ≠ [] →
  Web.get (py "filename") (Web.args req) = None →
  (∃ n, n ∈ names ∧ fs w !! temp_name tempdir n (py ".txt") = None) →
  (Web.download tempdir req names w).1
  = Ok (Web.Response
          (Web.FileBody true (py "transcription_transcription.txt")
             (py "text/plain") text)
          200).
Proof.
  intros Htext Hne Hname (n & Hn & Hfree).
  pose proof (download_spec tempdir req names text w Htext Hne) as Hspec.
  unfold wp in Hspec.
  destruct (Web.download tempdir req names w).1 as [resp|e].
  - destruct Hspec as [-> _]. by rewrite Hname.
  - by destruct (Hspec n Hn).
Qed.

Lemma X9_download_default_name_witness :
  (Web.download (py "/tmp") text_only_request [py "k3x9q2ab"] empty_world).1
  = Ok (Web.Response
          (Web.FileBody true (py "transcription_transcription.txt")
             (py "text/plain") (py "Hej"))
          200).
Proof.
  apply (X9_download_default_name (py "/tmp") text_only_request
           [py "k3x9q2ab"] (py "Hej") empty_world);
    [reflexivity|discriminate|reflexivity|].
  exists (py "k3x9q2ab"). split; [by left|reflexivity].
Defined.

(** X10.  Whatever 'filename' a client sends to GET /download, the download
    name of the attachment has no path separator and ends with
    "_transcription.txt". *)
Theorem X10_download_name_is_plain tempdir req names w
    as_attachment download_name mimetype content status :
  (Web.download tempdir req names w).1
  = Ok (Web.Response
          (Web.FileBody as_attachment download_name mimetype content) status) →
  (slash ∉ download_name)
  ∧ ∃ base, download_name = base ++ py "_transcription.txt".
Proof.
  intros Hresp.
  destruct (Web.get (py "text") (Web.args req)) as [[|c text]|] eqn:Htext.
  1, 3: by rewrite download_no_text in Hresp by (by rewrite Htext).
  pose proof (download_spec tempdir req names (c :: text) w Htext
                ltac:(discriminate)) as Hspec.
  unfold wp in Hspec. rewrite Hresp in Hspec.
  destruct Hspec as [[= -> -> -> -> ->] _]. split; [|eauto].
  apply not_elem_of_app. split; [apply stem_free|]. compute_done.
Qed.

Lemma X10_download_name_is_plain_witness :
  (slash ∉ py "clip_transcription.txt")
  ∧ ∃ base, py "clip_transcription.txt" = base ++ py "_transcription.txt".
Proof.
  apply (X10_download_name_is_plain (py "/tmp") hej_request [py "k3x9q2ab"]
           empty_world true (py "clip_transcription.txt") (py "text/plain")
           (py "Hej") 200).
  reflexivity.
Defined.

(** X11.  Batch mode never changes an existing file that has an audio
    extension, whatever the output directory is (the input directory itself
    included): the outputs are named "..._transcription.txt". *)
Theorem X11_audio_files_untouched {W : Whisper} self d out names w g :
  fs w !! Path d = Some (Dir names) →
  Cli.is_audio g →
  is_Some (fs w !! g) →
  fs (Cli.transcribe_directory self d out w).2 !! g = fs w !! g.
Proof.
  intros Hd Hg Hexists.
  pose proof (transcribe_directory_world self d out names w Hd) as Hrun.
  unfold wp in Hrun.
  destruct (audio_files d names) as [|f files]; [by destruct Hrun as [_ ->]|].
  destruct out as [[|c o]|]; [by destruct Hrun as (_ & -> & _)| |
                              by destruct Hrun as (_ & -> & _)].
  destruct (existsb _ _); [by destruct Hrun as [_ ->]|].
  destruct Hrun as (_ & -> & _).
  rewrite run_batch_audio by done. by apply with_output_dir_present.
Qed.

Lemma X11_audio_files_untouched_witness :
  fs (Cli.transcribe_directory cli_echo (py "in") (Some (py "in"))
        batch_world).2 !! py "in/a.WAV"
  = Some (File (py " hej ")).
Proof.
  apply (X11_audio_files_untouched (W := echo) cli_echo (py "in")
           (Some (py "in")) [py "a.WAV"; py "notes.txt"; py "b.mp3"]
           batch_world (py "in/a.WAV"));
    [reflexivity|compute_done|eexists; reflexivity].
Defined.

(** X12.  Whether an entry of the directory is processed depends on its own
    name alone, not on the path of the directory: for a listing of proper
    names (no slash, not empty, not "."), the audio files are the entries
    whose name has a suffix that, lower-cased, is in the allow-list. *)
Theorem X12_selection_by_name d names :
  Forall (λ n, is_part n ∧ slash ∉ n) names →
  audio_files d names
  = joinpath d <$> filter (λ n, lower (suffix_of_name n)
                                ∈ Cli.audio_extensions) names.
Proof. apply audio_files_by_name. Qed.

Lemma X12_selection_by_name_witness :
  audio_files (py "music.wav") [py "a.WAV"; py "notes.txt"; py ".mp3"]
  = [py "music.wav/a.WAV"].
Proof.
  rewrite (X12_selection_by_name (py "music.wav")
             [py "a.WAV"; py "notes.txt"; py ".mp3"]); [reflexivity|].
  repeat constructor; compute_done.
Defined.

(** X13.  A failed load is final: in every state the service reaches after
    the loader has failed, POST /transcribe is answered with status 500 and
    [{'error': 'Model not loaded yet'}], and nothing is saved or run. *)
Theorem X13_failed_load_is_final {W : Whisper} secure_filename tempdir w0 s e
    req elapsed :
  reachable secure_filename tempdir w0 s →
  Web.loader_pending s = false →
  (Web.init default_model w0).1 = Raise e →
  Web.transcribe secure_filename tempdir (Web.glob s) req elapsed (Web.env s)
  = (Ok (error_response "Model not loaded yet" 500), Web.env s).
Proof.
  intros Hr Hp Hfail. apply transcribe_not_ready.
  rewrite (reachable_globals _ _ w0 s Hr). unfold Web.loader_pending in Hp.
  destruct (Web.loader s); [done|done|]. cbn. unfold settled.
  by rewrite Hfail.
Qed.

Lemma X13_failed_load_is_final_witness :
  Web.transcribe (W := offline) id (py "/tmp") failed_offline
    clip_upload_request (py "0.00") empty_world
  = (Ok (error_response "Model not loaded yet" 500), empty_world).
Proof.
  apply (X13_failed_load_is_final (W := offline) id (py "/tmp") empty_world
           (Web.Server failed_offline Web.Returned empty_world)
           (Exception (py "no network")) clip_upload_request (py "0.00"));
    [|reflexivity|reflexivity].
  apply (reachable_step id (py "/tmp") empty_world
           (Web.Server (Web.Globals None true (Some (py "no network")))
              Web.Assigned empty_world)).
  - apply (reachable_step id (py "/tmp") empty_world (Web.boot empty_world)).
    + apply reachable_boot.
    + apply (Web.step_assign id (py "/tmp") (Web.boot empty_world));
        reflexivity.
  - apply (Web.step_return id (py "/tmp")
             (Web.Server (Web.Globals None true (Some (py "no network")))
                Web.Assigned empty_world)).
    reflexivity.
Defined.

(** X14.  When the input directory does not exist, or holds no entry with an
    audio extension, [transcribe_directory] returns and has done nothing; in
    particular it has not created the output directory. *)
Theorem X14_nothing_to_do {W : Whisper} self d out w :
  (fs w !! Path d = None
   ∨ ∃ names, fs w !! Path d = Some (Dir names) ∧ audio_files d names = []) →
  Cli.transcribe_directory self d out w = (Ok tt, w).
Proof.
  intros [Hmissing|(names & Hd & Hnone)].
  - apply wp_eq.
    assert (Hfound : negb (bool_decide (is_Some (fs w !! Path d))) = true).
    { rewrite Hmissing, bool_decide_eq_false_2; [done|]. by intros [? ?]. }
    unfold Cli.transcribe_directory, OS.exists_, OS.path_exists. by wp_run.
  - by eapply transcribe_directory_no_audio.
Qed.

Lemma X14_nothing_to_do_witness :
  Cli.transcribe_directory cli_echo (py "out") (Some (py "texts"))
    batch_world
  = (Ok tt, batch_world).
Proof.
  apply (X14_nothing_to_do (W := echo) cli_echo (py "out")
           (Some (py "texts")) batch_world).
  left. reflexivity.
Defined.

(** X15.  Without an output directory (no [-o], or an empty one) batch mode
    over a directory whose listed entries exist returns, loads every audio
    file in order and leaves the file system as it was. *)
Theorem X15_no_output_directory {W : Whisper} self d out names w :
  fs w !! Path d = Some (Dir names) →
  out = None ∨ out = Some [] →
  Forall (λ f, is_Some (fs w !! f)) (audio_files d names) →
  (Cli.transcribe_directory self d out w).1 = Ok tt
  ∧ fs (Cli.transcribe_directory self d out w).2 = fs w
  ∧ loads (trace (Cli.transcribe_directory self d out w).2)
    = loads (trace w) ++ audio_files d names.
Proof.
  intros Hd Hout Hexist.
  pose proof (transcribe_directory_world self d out names w Hd) as Hrun.
  unfold wp in Hrun.
  destruct (audio_files d names) as [|f files].
  - destruct Hrun as [-> ->]. by rewrite app_nil_r.
  - destruct Hout as [-> | ->]; destruct Hrun as (-> & -> & Hloads); auto.
Qed.

Lemma X15_no_output_directory_witness :
  (Cli.transcribe_directory cli_echo (py "in") None batch_world).1 = Ok tt
  ∧ fs (Cli.transcribe_directory cli_echo (py "in") None batch_world).2
    = fs batch_world
  ∧ loads (trace (Cli.transcribe_directory cli_echo (py "in") None
                    batch_world).2)
    = [py "in/a.WAV"; py "in/b.mp3"].
Proof.
  apply (X15_no_output_directory (W := echo) cli_echo (py "in") None
           [py "a.WAV"; py "notes.txt"; py "b.mp3"] batch_world);
    [reflexivity|by left|].
  change (Forall (λ f, is_Some (fs batch_world !! f))
            [py "in/a.WAV"; py "in/b.mp3"]).
  repeat constructor; eexists; reflexivity.
Defined.

(** X16.  The single-file run: when the model loads, the input is a regular
    file whose transcription yields a text, and the output path is no
    directory, is not spelled as one, and lies in a directory that is there,
    the tool writes the text, trimmed, to the output path, changes nothing
    else and ends with status 0. *)
Theorem X16_single_file {W : Whisper} a w t c text x p :
  (Cli.init (Cli.arg_model a) w).1 = Ok t →
  Path (Cli.arg_input a) = Cli.arg_input a →
  fs w !! Cli.arg_input a = Some (File c) →
  (Cli.transcribe_audio t (Cli.arg_input a) (py "sv") w).1 = Ok (Some text) →
  Cli.arg_output a = Some (x :: p) →
  (∀ l, fs w !! (x :: p) ≠ Some (Dir l)) →
  names_directory (x :: p) = false →
  (∀ q, parent (x :: p) = Some q → ∃ l, fs w !! q = Some (Dir l)) →
  Cli.exit_code (Cli.main a w).1 = 0%Z
  ∧ fs (Cli.main a w).2 = <[x :: p := File text]> (fs w)
  ∧ trimmed text.
Proof.
  intros Hinit Hnormal Hin Htext Hout Hdir Hspelled Hparent.
  assert (Hw : writable (fs w) (x :: p) = true) by (by apply writable_spec).
  assert (Hrun : wp (Cli.main a)
            (λ r w', Cli.exit_code r = 0%Z
                     ∧ fs w' = <[x :: p := File text]> (fs w)) w).
  { unfold Cli.main. apply wp_bind. unfold wp at 1.
    destruct (cli_init_result (Cli.arg_model a) w) as [[t' Hi]|Hi];
      rewrite Hi in Hinit |- *; simplify_eq/=.
    unfold OS.is_file. rewrite Hnormal. wp_run.
    rewrite transcribe_audio_result in Htext. simplify_eq.
    eapply wp_mono; [apply transcribe_file_outcome|].
    intros r w'. rewrite Htext, Hout, Hw.
    intros [-> Hfs]. by apply wp_ret. }
  unfold wp in Hrun. destruct Hrun as [? ?]. split; [done|]. split; [done|].
  pose proof (cli_transcribe_audio_result t (Cli.arg_input a) (py "sv") w)
    as Htrim.
  unfold wp in Htrim. by rewrite Htext in Htrim.
Qed.

Lemma X16_single_file_witness :
  Cli.exit_code (Cli.main (W := echo) single_file_args batch_world).1 = 0%Z
  ∧ fs (Cli.main (W := echo) single_file_args batch_world).2
    = <[py "out.txt" := File (py "hej")]> (fs batch_world)
  ∧ trimmed (py "hej").
Proof.
  apply (X16_single_file (W := echo) single_file_args batch_world cli_echo
           (py " hej ") (py "hej") 111%N (py "ut.txt"));
    [reflexivity|reflexivity|reflexivity|reflexivity|reflexivity|discriminate
    |reflexivity|discriminate].
Defined.
